(** * The transformer encoder of jatts: construction and the two forward paths

    A shallow embedding of [jatts/modules/transformer/encoder.py].

    - Part 1 models [Encoder.__init__] and [get_positionwise_layer]: the
      dispatch on the configuration tags, the errors the constructor raises
      and the objects it stores on [self].
    - Part 2 models [Encoder.forward] and [Encoder.forward_one_step] over the
      numeric collaborators (embedders, encoder layers, layer normalisation,
      the conditioning modules), which the encoder only calls.

    Python floats are IEEE 754 doubles (the kernel's primitive [float], with
    its round-to-nearest operations); tensors and masks are kept abstract,
    since the encoder never looks inside them. *)

From Stdlib Require Import Ascii String ZArith Floats.
From stdpp Require Import base list strings gmap pretty.

Set Warnings "-inexact-float".

Local Open Scope Z_scope.
Local Open Scope string_scope.
Local Open Scope list_scope.

(** ** Python exceptions and the error monad *)

Inductive PyError :=
| ValueError (msg : string)
| NotImplementedError (msg : string)
| NameError (name : string)
| IndexError (msg : string)
| TypeError (msg : string)
| AttributeError (attr : string).

Inductive result (A : Type) :=
| Ok (a : A)
| Raise (e : PyError).
Arguments Ok {A} a.
Arguments Raise {A} e.

#[global] Instance result_ret : MRet result := @Ok.
#[global] Instance result_bind : MBind result :=
  λ A B f m, match m with Ok a => f a | Raise e => Raise e end.
#[global] Instance result_fmap : FMap result :=
  λ A B f m, match m with Ok a => Ok (f a) | Raise e => Raise e end.

Definition is_Ok {A} (r : result A) : Prop := ∃ a, r = Ok a.

(** ** Python built-ins used by the constructor *)

(** [s.split(sep)] for a one-character separator: every occurrence splits,
    so the result is never empty. *)
Fixpoint split_on (sep : ascii) (s : string) : list string :=
  match s with
  | EmptyString => [EmptyString]
  | String c s' =>
      if Ascii.eqb c sep then EmptyString :: split_on sep s'
      else match split_on sep s' with
           | w :: ws => String c w :: ws
           | [] => [String c EmptyString]
           end
  end.

(** The white space [int] skips around an ASCII literal: space, and tab to
    carriage return. *)
Definition is_space (c : ascii) : bool :=
  let n := nat_of_ascii c in
  (Nat.eqb n 32 || (Nat.leb 9 n && Nat.leb n 13))%bool.

Fixpoint lstrip (s : string) : string :=
  match s with
  | String c s' => if is_space c then lstrip s' else s
  | EmptyString => EmptyString
  end.

Definition digit_value (c : ascii) : option Z :=
  let n := nat_of_ascii c in
  if (Nat.leb 48 n && Nat.leb n 57)%bool then Some (Z.of_nat (n - 48)) else None.

(** The scan of the digits: the leading run of decimal digits, by value,
    and what follows it. Single underscores may group the digits; the run
    may not start or end with one, and two may not meet ([after_underscore]
    holds at the start and after an underscore). A run without digits or
    with a misplaced underscore gives [None]. *)
Fixpoint scan_digits (after_underscore : bool) (s : string) : option (list Z * string) :=
  match s with
  | EmptyString => if after_underscore then None else Some ([], EmptyString)
  | String c s' =>
      if Ascii.eqb c "_" then
        if after_underscore then None else scan_digits true s'
      else
        match digit_value c with
        | Some d =>
            match scan_digits false s' with
            | Some (ds, rest) => Some (d :: ds, rest)
            | None => None
            end
        | None => if after_underscore then None else Some ([], s)
        end
  end.

Definition decimal_value (ds : list Z) : Z :=
  fold_left (λ acc d, 10 * acc + d) ds 0.

Definition hex_digit (n : nat) : ascii :=
  ascii_of_nat (if Nat.ltb n 10 then 48 + n else 87 + n).

(** [repr(s)] of a string of characters below 256: single quotes, unless the
    string holds a single quote and no double quote; the quote in use and
    the backslash are escaped, as are the characters that are not
    printable. *)
Definition repr_char (quote c : ascii) : string :=
  let n := nat_of_ascii c in
  let backslash := ascii_of_nat 92 in
  if (Ascii.eqb c quote || Ascii.eqb c backslash)%bool
  then String backslash (String c EmptyString)
  else if Nat.eqb n 9 then String backslash "t"
  else if Nat.eqb n 10 then String backslash "n"
  else if Nat.eqb n 13 then String backslash "r"
  else if (Nat.ltb n 32 || (Nat.leb 127 n && Nat.leb n 160) || Nat.eqb n 173)%bool then
    String backslash (String "x" (String (hex_digit (n / 16))
                                    (String (hex_digit (n mod 16)) EmptyString)))
  else String c EmptyString.

Fixpoint string_has (c : ascii) (s : string) : bool :=
  match s with
  | EmptyString => false
  | String c' s' => (Ascii.eqb c c' || string_has c s')%bool
  end.

Fixpoint repr_body (quote : ascii) (s : string) : string :=
  match s with
  | EmptyString => EmptyString
  | String c s' => repr_char quote c +:+ repr_body quote s'
  end.

Definition py_repr (s : string) : string :=
  let single := ascii_of_nat 39 in
  let double := ascii_of_nat 34 in
  let quote := if (string_has single s && negb (string_has double s))%bool
               then double else single in
  String quote (repr_body quote s +:+ String quote EmptyString).

(** [sys.get_int_max_str_digits()]: the interpreter's limit on the decimal
    digits [int] converts (4300 by default since CPython 3.11; 0 switches
    the limit off, as in the interpreters before). *)
Definition int_max_str_digits : nat := 4300.

(** [int(s)] on a string of ASCII characters, in the order of the built-in:
    leading white space and an optional sign are skipped, the run of decimal
    digits is scanned, counted and checked against the digit limit, then
    converted, and only white space may follow it. The message of an invalid
    literal shows the first 200 characters of the argument's [repr]. *)
Definition py_int (s : string) : result Z :=
  let bad :=
    Raise (ValueError ("invalid literal for int() with base 10: "
                       +:+ String.substring 0 200 (py_repr s))) in
  let '(negative, body) :=
    match lstrip s with
    | String "-" d => (true, d)
    | String "+" d => (false, d)
    | d => (false, d)
    end in
  match scan_digits true body with
  | None => bad
  | Some (digits, rest) =>
      if (Nat.ltb 0 int_max_str_digits && Nat.ltb int_max_str_digits (length digits))%bool
      then Raise (ValueError ("Exceeds the limit (" +:+ pretty int_max_str_digits
                              +:+ " digits) for integer string conversion: value has "
                              +:+ pretty (length digits)
                              +:+ " digits; use sys.set_int_max_str_digits() "
                              +:+ "to increase the limit"))
      else match lstrip rest with
           | EmptyString =>
               Ok (if negative then - decimal_value digits else decimal_value digits)
           | _ => bad
           end
  end.

(** [l[i]] for a non-negative index. *)
Definition py_index {A} (l : list A) (i : nat) : result A :=
  match l !! i with
  | Some x => Ok x
  | None => Raise (IndexError "list index out of range")
  end.

(** Names bound at module level by the import statements of encoder.py (and
    the class it defines). Reading any other global raises [NameError]. *)
Definition module_globals : gset string :=
  {[ "logging"; "torch"; "PositionalEncoding"; "MultiHeadedAttention";
     "EncoderLayer"; "LayerNorm"; "Conv1dLinear"; "MultiLayeredConv1d";
     "PositionwiseFeedForward"; "repeat"; "Conv2dSubsampling";
     "Conv2dSubsampling6"; "Conv2dSubsampling8"; "Encoder" ]}.

Definition load_global (name : string) : result unit :=
  if bool_decide (name ∈ module_globals) then Ok () else Raise (NameError name).
Arguments load_global : simpl never.

(** ** The objects the constructor builds *)

(** A module or callable handed in by the caller, known only by identity. *)
Inductive External := ExternalObject (id : nat).

Inductive PosEncClass := PositionalEncoding | ScaledPositionalEncoding.

(** Members of a [torch.nn.Sequential] front end. *)
Inductive NNModule :=
| Linear (in_features out_features : Z)
| TorchLayerNorm (dim : Z)
| Dropout (p : float)
| ReLU
| Embedding (num_embeddings embedding_dim padding_idx : Z)
| PosEnc (cls : PosEncClass) (d_model : Z) (rate : float)
| UserModule (m : External).

(** The object stored in [self.embed], by class. *)
Inductive EmbedModule :=
| Conv2dSubsampling (idim odim : Z) (rate : float) (pos_enc : option NNModule)
| Conv2dSubsampling6 (idim odim : Z) (rate : float)
| Conv2dSubsampling8 (idim odim : Z) (rate : float)
| VGG2L (idim odim : Z)
| Sequential (members : list NNModule).

Inductive SelfAttnClass :=
| MultiHeadedAttention
| LightweightConvolution
| LightweightConvolution2D
| DynamicConvolution
| DynamicConvolution2D.

Inductive SelfAttnArgs :=
| AttnArgs (heads dim : Z) (rate : float)
| ConvArgs (wshare dim : Z) (rate : float) (kernel : Z) (use_kernel_mask use_bias : bool).

Inductive PositionwiseClass := PositionwiseFeedForward | MultiLayeredConv1d | Conv1dLinear.

Inductive PositionwiseArgs :=
| FFArgs (dim units : Z) (rate : float)
| ConvFFArgs (dim units kernel : Z) (rate : float).

Inductive LayerNormModule := LayerNorm (nout : Z).

(** One [EncoderLayer(...)], by its constructor arguments. *)
Record EncoderLayer := {
  layer_size : Z;
  self_attn : SelfAttnClass * SelfAttnArgs;
  feed_forward : PositionwiseClass * PositionwiseArgs;
  layer_dropout_rate : float;
  layer_normalize_before : bool;
  layer_concat_after : bool;
  layer_stochastic_depth_rate : float;
}.

Inductive InputLayer :=
| Tag (tag : string)
| ModuleInstance (m : External)
| NoInputLayer.

#[global] Instance External_eq_dec : EqDecision External.
Proof. solve_decision. Defined.
#[global] Instance InputLayer_eq_dec : EqDecision InputLayer.
Proof. solve_decision. Defined.

(** The arguments of [Encoder(...)]. *)
Record EncoderArgs := {
  idim : Z;
  attention_dim : Z;
  attention_heads : Z;
  conv_wshare : Z;
  conv_kernel_length : string;
  conv_usebias : bool;
  linear_units : Z;
  num_blocks : nat;
  dropout_rate : float;
  positional_dropout_rate : float;
  attention_dropout_rate : float;
  input_layer : InputLayer;
  pos_enc_class : PosEncClass;
  arg_normalize_before : bool;
  concat_after : bool;
  positionwise_layer_type : string;
  positionwise_conv_kernel_size : Z;
  selfattention_layer_type : string;
  padding_idx : Z;
  stochastic_depth_rate : float;
  arg_intermediate_layers : option (list Z);
  arg_ctc_softmax : option External;
  conditioning_layer_dim : option Z;
}.

(** The encoder object: the attributes [__init__] stores on [self].
    [after_norm] exists only when [normalize_before] holds, [ctc_softmax] and
    [conditioning_layer] only when [use_conditioning] holds. *)
Record Encoder := {
  conv_subsampling_factor : Z;
  embed : EmbedModule;
  normalize_before : bool;
  encoders : list EncoderLayer;
  after_norm : option LayerNormModule;
  intermediate_layers : option (list Z);
  use_conditioning : bool;
  ctc_softmax : option External;
  conditioning_layer : option NNModule;
}.

(** ** Part 1: construction *)

(** The front end selected by [input_layer] (lines 96-140), with the value
    [conv_subsampling_factor] has when the branch is left. The comparisons
    with the string tags are false for a module instance and for [None]. *)
Definition init_embed (a : EncoderArgs) : result (EmbedModule * Z) :=
  let pos_enc := PosEnc (pos_enc_class a) (attention_dim a) (positional_dropout_rate a) in
  let conv_subsampling_factor := 1 in
  match input_layer a with
  | Tag t =>
      if String.eqb t "linear" then
        Ok (Sequential [Linear (idim a) (attention_dim a);
                        TorchLayerNorm (attention_dim a);
                        Dropout (dropout_rate a);
                        ReLU;
                        pos_enc], conv_subsampling_factor)
      else if String.eqb t "conv2d" then
        load_global "Conv2dSubsampling";;
        Ok (Conv2dSubsampling (idim a) (attention_dim a) (dropout_rate a) None, 4)
      else if String.eqb t "conv2d-scaled-pos-enc" then
        load_global "Conv2dSubsampling";;
        Ok (Conv2dSubsampling (idim a) (attention_dim a) (dropout_rate a) (Some pos_enc), 4)
      else if String.eqb t "conv2d6" then
        load_global "Conv2dSubsampling6";;
        Ok (Conv2dSubsampling6 (idim a) (attention_dim a) (dropout_rate a), 6)
      else if String.eqb t "conv2d8" then
        load_global "Conv2dSubsampling8";;
        Ok (Conv2dSubsampling8 (idim a) (attention_dim a) (dropout_rate a), 8)
      else if String.eqb t "vgg2l" then
        load_global "VGG2L";;
        Ok (VGG2L (idim a) (attention_dim a), 4)
      else if String.eqb t "embed" then
        Ok (Sequential [Embedding (idim a) (attention_dim a) (padding_idx a); pos_enc],
            conv_subsampling_factor)
      else
        Raise (ValueError ("unknown input_layer: " +:+ t))
  | ModuleInstance m =>
      Ok (Sequential [UserModule m; pos_enc], conv_subsampling_factor)
  | NoInputLayer =>
      Ok (Sequential [pos_enc], conv_subsampling_factor)
  end.

(** [get_positionwise_layer] (lines 250-280). *)
Definition get_positionwise_layer (positionwise_layer_type : string)
    (attention_dim linear_units : Z) (dropout_rate : float)
    (positionwise_conv_kernel_size : Z) : result (PositionwiseClass * PositionwiseArgs) :=
  if String.eqb positionwise_layer_type "linear" then
    load_global "PositionwiseFeedForward";;
    Ok (PositionwiseFeedForward, FFArgs attention_dim linear_units dropout_rate)
  else if String.eqb positionwise_layer_type "conv1d" then
    load_global "MultiLayeredConv1d";;
    Ok (MultiLayeredConv1d,
        ConvFFArgs attention_dim linear_units positionwise_conv_kernel_size dropout_rate)
  else if String.eqb positionwise_layer_type "conv1d-linear" then
    load_global "Conv1dLinear";;
    Ok (Conv1dLinear,
        ConvFFArgs attention_dim linear_units positionwise_conv_kernel_size dropout_rate)
  else
    Raise (NotImplementedError "Support only linear or conv1d.").

(** The list comprehension of the four convolutional branches: for each
    [lnum in range(num_blocks)], entry [lnum] of the split kernel string is
    indexed and then converted. *)
Definition conv_selfattn_layer_args (a : EncoderArgs) : result (list SelfAttnArgs) :=
  mapM (λ lnum,
          entry ← py_index (split_on "_" (conv_kernel_length a)) lnum;
          kernel ← py_int entry;
          Ok (ConvArgs (conv_wshare a) (attention_dim a) (attention_dropout_rate a)
                       kernel false (conv_usebias a)))
       (seq 0 (num_blocks a)).

(** The self-attention class and its per-layer arguments (lines 149-225). In
    each branch the class name is read before the argument list is built. *)
Definition init_selfattn (a : EncoderArgs) : result (SelfAttnClass * list SelfAttnArgs) :=
  let t := selfattention_layer_type a in
  if bool_decide (t ∈ ["selfattn"; "rel_selfattn"; "legacy_rel_selfattn"]) then
    load_global "MultiHeadedAttention";;
    Ok (MultiHeadedAttention,
        replicate (num_blocks a)
          (AttnArgs (attention_heads a) (attention_dim a) (attention_dropout_rate a)))
  else if String.eqb t "lightconv" then
    load_global "LightweightConvolution";;
    args ← conv_selfattn_layer_args a; Ok (LightweightConvolution, args)
  else if String.eqb t "lightconv2d" then
    load_global "LightweightConvolution2D";;
    args ← conv_selfattn_layer_args a; Ok (LightweightConvolution2D, args)
  else if String.eqb t "dynamicconv" then
    load_global "DynamicConvolution";;
    args ← conv_selfattn_layer_args a; Ok (DynamicConvolution, args)
  else if String.eqb t "dynamicconv2d" then
    load_global "DynamicConvolution2D";;
    args ← conv_selfattn_layer_args a; Ok (DynamicConvolution2D, args)
  else
    Raise (NotImplementedError t).

(** Modelled from the spec: [repeat] (module transformer.repeat) is not among
    the sources. The spec describes the stack as a "sequential container of N
    EncoderLayers" filled by a uniform builder loop over the layer index
    0 .. N-1, in order. *)
Definition repeat {A} (N : nat) (fn : nat → result A) : result (list A) :=
  mapM fn (seq 0 N).

(** The double nearest to a non-negative integer, ties to even: [float(n)],
    and the conversion of the int operand of a mixed [float / int]. (Python
    raises [OverflowError] for an integer beyond the largest double, near
    1.8e308; the integers converted here are layer counts.) *)
Definition py_float (n : nat) : float :=
  SF2Prim (binary_normalize prec emax (Z.of_nat n) 0 false).

(** [stochastic_depth_rate * float(1 + lnum) / num_blocks] (line 236), in
    double arithmetic from left to right: the product is rounded, then the
    quotient. It is only evaluated for [lnum < num_blocks], so the divisor
    is positive. *)
Definition layer_skip_rate (rate : float) (lnum N : nat) : float :=
  (rate * py_float (1 + lnum) / py_float N)%float.

(** The builder passed to [repeat] (lines 229-237). *)
Definition new_encoder_layer (a : EncoderArgs)
    (positionwise : PositionwiseClass * PositionwiseArgs)
    (encoder_selfattn_layer : SelfAttnClass)
    (encoder_selfattn_layer_args : list SelfAttnArgs) (lnum : nat) : result EncoderLayer :=
  load_global "EncoderLayer";;
  attn_args ← py_index encoder_selfattn_layer_args lnum;
  Ok {| layer_size := attention_dim a;
        self_attn := (encoder_selfattn_layer, attn_args);
        feed_forward := positionwise;
        layer_dropout_rate := dropout_rate a;
        layer_normalize_before := arg_normalize_before a;
        layer_concat_after := concat_after a;
        layer_stochastic_depth_rate :=
          layer_skip_rate (stochastic_depth_rate a) lnum (num_blocks a) |}.

(** [Encoder.__init__] (lines 67-248): the control flow of the constructor
    and the errors it raises itself. The constructors of the collaborators
    ([torch.nn.Dropout], [Embedding], [MultiHeadedAttention], ...) are not
    among the sources and validate their arguments on their own; they are
    taken to accept what they are given, so [Ok] here is necessary for the
    construction to succeed, and sufficient when the collaborators accept
    their arguments. The one exception is [torch.nn.Linear(None, ...)], which
    has no input size to build from and raises [TypeError] (with torch's own
    message, which is not modelled). *)
Definition Encoder_init (a : EncoderArgs) : result Encoder :=
  '(embed, conv_subsampling_factor) ← init_embed a;
  let normalize_before := arg_normalize_before a in
  positionwise ← get_positionwise_layer (positionwise_layer_type a) (attention_dim a)
                    (linear_units a) (dropout_rate a) (positionwise_conv_kernel_size a);
  '(encoder_selfattn_layer, encoder_selfattn_layer_args) ← init_selfattn a;
  load_global "repeat";;
  encoders ← repeat (num_blocks a)
                (new_encoder_layer a positionwise encoder_selfattn_layer
                                   encoder_selfattn_layer_args);
  after_norm ← (if normalize_before
                then load_global "LayerNorm";; Ok (Some (LayerNorm (attention_dim a)))
                else Ok None);
  let use_conditioning := bool_decide (arg_ctc_softmax a ≠ None) in
  conditioning_layer ←
    (if use_conditioning
     then match conditioning_layer_dim a with
          | Some d => Ok (Some (Linear d (attention_dim a)))
          | None => Raise (TypeError "torch.nn.Linear: in_features is None")
          end
     else Ok None);
  Ok {| conv_subsampling_factor := conv_subsampling_factor;
        embed := embed;
        normalize_before := normalize_before;
        encoders := encoders;
        after_norm := after_norm;
        intermediate_layers := arg_intermediate_layers a;
        use_conditioning := use_conditioning;
        ctc_softmax := if use_conditioning then arg_ctc_softmax a else None;
        conditioning_layer := conditioning_layer |}.

(** What a successful construction stores, in terms of its stages. *)
Definition built_from (a : EncoderArgs) (em : EmbedModule) (factor : Z)
    (layers : list EncoderLayer) : Encoder :=
  let use_conditioning := bool_decide (arg_ctc_softmax a ≠ None) in
  {| conv_subsampling_factor := factor;
     embed := em;
     normalize_before := arg_normalize_before a;
     encoders := layers;
     after_norm := if arg_normalize_before a
                   then Some (LayerNorm (attention_dim a)) else None;
     intermediate_layers := arg_intermediate_layers a;
     use_conditioning := use_conditioning;
     ctc_softmax := if use_conditioning then arg_ctc_softmax a else None;
     conditioning_layer :=
       if use_conditioning
       then (λ d, Linear d (attention_dim a)) <$> conditioning_layer_dim a
       else None |}.

(** The attributes of the constructed object by name, as the assignments
    [self.<name> = ...] of [__init__] leave them. *)
Inductive AttrValue :=
| AInt (z : Z)
| ABool (b : bool)
| AEmbed (m : EmbedModule)
| ALayers (l : list EncoderLayer)
| ANorm (n : LayerNormModule)
| ATaps (t : option (list Z))
| ACallable (c : External)
| AModule (m : NNModule).

Definition set_if_some {A} (name : string) (f : A → AttrValue) (o : option A)
    (self : gmap string AttrValue) : gmap string AttrValue :=
  match o with Some v => <[name := f v]> self | None => self end.

Definition attributes (e : Encoder) : gmap string AttrValue :=
  set_if_some "conditioning_layer" AModule (conditioning_layer e)
  (set_if_some "ctc_softmax" ACallable (ctc_softmax e)
  (<["use_conditioning" := ABool (use_conditioning e)]>
  (<["intermediate_layers" := ATaps (intermediate_layers e)]>
  (set_if_some "after_norm" ANorm (after_norm e)
  (<["encoders" := ALayers (encoders e)]>
  (<["normalize_before" := ABool (normalize_before e)]>
  (<["embed" := AEmbed (embed e)]>
  (<["conv_subsampling_factor" := AInt (conv_subsampling_factor e)]> ∅)))))))).

(** The default arguments of the signature, for a given input dimension. *)
Definition default_args (idim : Z) : EncoderArgs :=
  {| idim := idim; attention_dim := 256; attention_heads := 4; conv_wshare := 4;
     conv_kernel_length := "11"; conv_usebias := false; linear_units := 2048;
     num_blocks := 6; dropout_rate := 0.1; positional_dropout_rate := 0.1;
     attention_dropout_rate := 0; input_layer := Tag "conv2d";
     pos_enc_class := PositionalEncoding; arg_normalize_before := true;
     concat_after := false; positionwise_layer_type := "linear";
     positionwise_conv_kernel_size := 1; selfattention_layer_type := "selfattn";
     padding_idx := -1; stochastic_depth_rate := 0;
     arg_intermediate_layers := None; arg_ctc_softmax := None;
     conditioning_layer_dim := None |}.


(** ** Part 2: the two forward paths *)

(** The numeric collaborators the encoder calls. A call is a function of its
    arguments (inference mode, fixed weights); what happens inside a
    collaborator, including an exception it may raise, is outside the model.
    - [call_embed_masked e xs masks] is [e(xs, masks)] for a subsampling
      embedder stored in [self.embed], [call_embed e xs] is [e(xs)] for a
      front end that takes the activations alone;
    - [call_layer e xs masks c] is [e(xs, masks, cache=c)] for an encoder
      layer, the batch path calling [e(xs, masks)] with the default
      [cache=None];
    - [call_norm], [call_ctc] and [call_linear] are [self.after_norm],
      [self.ctc_softmax] and [self.conditioning_layer];
    - [tensor_add] is [+] on tensors. *)
Class Collaborators (Tensor Mask : Type) := {
  call_embed_masked : EmbedModule → Tensor → Mask → Tensor * Mask;
  call_embed : EmbedModule → Tensor → Tensor;
  call_layer : EncoderLayer → Tensor → Mask → option Tensor → Tensor * Mask;
  call_norm : LayerNormModule → Tensor → Tensor;
  call_ctc : External → Tensor → Tensor;
  call_linear : NNModule → Tensor → Tensor;
  tensor_add : Tensor → Tensor → Tensor;
}.

(** Reading an attribute that [__init__] may not have set. *)
Definition get_attr {A} (name : string) (o : option A) : result A :=
  match o with
  | Some v => Ok v
  | None => Raise (AttributeError name)
  end.

(** [enumerate(l)]. *)
Definition enumerate {A} (l : list A) : list (nat * A) :=
  zip (seq 0 (length l)) l.

(** A [for] loop whose body may raise. *)
Fixpoint for_each {A S} (body : S → A → result S) (l : list A) (st : S) : result S :=
  match l with
  | [] => Ok st
  | x :: rest => st' ← body st x; for_each body rest st'
  end.

Section Forward.
Context {Tensor Mask : Type} `{!Collaborators Tensor Mask}.

(** Lines 294-300: the embedding step of [forward]. The [else] branch is
    reached by the front ends that take the activations alone. *)
Definition embed_batch (self : Encoder) (xs : Tensor) (masks : Mask) : Tensor * Mask :=
  match embed self with
  | Conv2dSubsampling _ _ _ _ | Conv2dSubsampling6 _ _ _ | Conv2dSubsampling8 _ _ _ =>
      call_embed_masked (embed self) xs masks
  | _ => (call_embed (embed self) xs, masks)
  end.

(** Modelled from the spec: the call [e(xs)] on the object stored in
    [self.embed]. The classes of transformer.subsampling are not among the
    sources; by the spec the conv2d, conv2d6 and conv2d8 embedders have the
    contract "embed(x, mask) -> (x', mask')" ("mask is subsampled to match
    by strided selection; returns the new mask"), and [forward] calls them
    so (line 298). Called without the mask, Python raises [TypeError] for
    the missing argument before the embedder runs; the message names the
    class and the parameter (x_mask in the upstream classes). *)
Definition call_unmasked (e : EmbedModule) (xs : Tensor) : result Tensor :=
  let missing (cls : string) :=
    Raise (TypeError (cls +:+ ".forward() missing 1 required positional argument: "
                          +:+ "'x_mask'")) in
  match e with
  | Conv2dSubsampling _ _ _ _ => missing "Conv2dSubsampling"
  | Conv2dSubsampling6 _ _ _ => missing "Conv2dSubsampling6"
  | Conv2dSubsampling8 _ _ _ => missing "Conv2dSubsampling8"
  | _ => Ok (call_embed e xs)
  end.

(** Lines 344-347: the embedding step of [forward_one_step]. *)
Definition embed_one_step (self : Encoder) (xs : Tensor) (masks : Mask)
    : result (Tensor * Mask) :=
  match embed self with
  | Conv2dSubsampling _ _ _ _ => Ok (call_embed_masked (embed self) xs masks)
  | _ => xs ← call_unmasked (embed self) xs; Ok (xs, masks)
  end.

(** Modelled from the spec: calling the layer container [self.encoders]
    (class MultiSequential of transformer.repeat, not among the sources).
    The spec: "Run activations sequentially through each layer, threading
    the mask". *)
Definition call_encoders (layers : list EncoderLayer) (xs : Tensor) (masks : Mask)
    : Tensor * Mask :=
  fold_left (λ st e, call_layer e st.1 st.2 None) layers (xs, masks).

(** [xs = self.after_norm(xs)] under [if self.normalize_before]. *)
Definition final_norm (self : Encoder) (xs : Tensor) : result Tensor :=
  if normalize_before self then
    norm ← get_attr "after_norm" (after_norm self); Ok (call_norm norm xs)
  else Ok xs.

(** The test of lines 309-312. *)
Definition is_tap (self : Encoder) (layer_idx : nat) : bool :=
  match intermediate_layers self with
  | Some taps => bool_decide (Z.of_nat layer_idx + 1 ∈ taps)
  | None => false
  end.

(** The body of the loop of lines 306-321, on the loop state
    [(xs, masks, intermediate_outputs)]. *)
Definition tap_body (self : Encoder) (st : Tensor * Mask * list Tensor)
    (it : nat * EncoderLayer) : result (Tensor * Mask * list Tensor) :=
  let '(xs, masks, intermediate_outputs) := st in
  let '(layer_idx, encoder_layer) := it in
  let '(xs, masks) := call_layer encoder_layer xs masks None in
  if is_tap self layer_idx then
    encoder_output ← final_norm self xs;
    let intermediate_outputs := intermediate_outputs ++ [encoder_output] in
    if use_conditioning self then
      ctc ← get_attr "ctc_softmax" (ctc_softmax self);
      let intermediate_result := call_ctc ctc encoder_output in
      projection ← get_attr "conditioning_layer" (conditioning_layer self);
      Ok (tensor_add xs (call_linear projection intermediate_result),
          masks, intermediate_outputs)
    else Ok (xs, masks, intermediate_outputs)
  else Ok (xs, masks, intermediate_outputs).

(** [Encoder.forward] (lines 282-328). The result is the pair
    [(xs, masks)] when the third component is [None], and the triple with
    the intermediate outputs otherwise. *)
Definition forward (self : Encoder) (xs : Tensor) (masks : Mask)
    : result (Tensor * Mask * option (list Tensor)) :=
  let '(xs, masks) := embed_batch self xs masks in
  '(xs, masks, intermediate_outputs) ←
    match intermediate_layers self with
    | None => let '(xs, masks) := call_encoders (encoders self) xs masks in
              Ok (xs, masks, [])
    | Some _ => for_each (tap_body self) (enumerate (encoders self)) (xs, masks, [])
    end;
  xs ← final_norm self xs;
  match intermediate_layers self with
  | Some _ => Ok (xs, masks, Some intermediate_outputs)
  | None => Ok (xs, masks, None)
  end.

(** Lines 348-349. *)
Definition init_cache (self : Encoder) (cache : option (list (option Tensor)))
    : list (option Tensor) :=
  match cache with
  | None => replicate (length (encoders self)) None
  | Some cache => cache
  end.

(** The body of the loop of lines 351-353, on [(xs, masks, new_cache)]. *)
Definition step_body (st : Tensor * Mask * list Tensor)
    (it : option Tensor * EncoderLayer) : Tensor * Mask * list Tensor :=
  let '(xs, masks, new_cache) := st in
  let '(c, e) := it in
  let '(xs, masks) := call_layer e xs masks c in
  (xs, masks, new_cache ++ [xs]).

(** [Encoder.forward_one_step] (lines 330-356). *)
Definition forward_one_step (self : Encoder) (xs : Tensor) (masks : Mask)
    (cache : option (list (option Tensor))) : result (Tensor * Mask * list Tensor) :=
  '(xs, masks) ← embed_one_step self xs masks;
  let cache := init_cache self cache in
  let '(xs, masks, new_cache) :=
    fold_left step_body (zip cache (encoders self)) (xs, masks, []) in
  xs ← final_norm self xs;
  Ok (xs, masks, new_cache).

(** The main path without taps: embedding, the layers in order, the final
    normalisation. *)
Definition main_path (self : Encoder) (xs : Tensor) (masks : Mask) : result (Tensor * Mask) :=
  let '(xs, masks) := embed_batch self xs masks in
  let '(xs, masks) := call_encoders (encoders self) xs masks in
  xs ← final_norm self xs;
  Ok (xs, masks).

(** The loop state of [forward] once the first [k] layers have run (the whole
    stack for [k] beyond its length), before the final normalisation. *)
Definition batch_state (self : Encoder) (k : nat) (xs : Tensor) (masks : Mask)
    : result (Tensor * Mask * list Tensor) :=
  let '(xs, masks) := embed_batch self xs masks in
  match intermediate_layers self with
  | None => let '(xs, masks) := call_encoders (take k (encoders self)) xs masks in
            Ok (xs, masks, [])
  | Some _ =>
      for_each (tap_body self) (take k (enumerate (encoders self))) (xs, masks, [])
  end.

(** The loop state of [forward_one_step] once the first [k] layers have run. *)
Definition step_state (self : Encoder) (k : nat) (xs : Tensor) (masks : Mask)
    (cache : option (list (option Tensor))) : result (Tensor * Mask * list Tensor) :=
  embedded ← embed_one_step self xs masks;
  Ok (fold_left step_body (take k (zip (init_cache self cache) (encoders self)))
                (embedded, [])).

(** The copy a tap captures from the activations [xs]. *)
Definition captured (self : Encoder) (norm : LayerNormModule) (xs : Tensor) : Tensor :=
  if normalize_before self then call_norm norm xs else xs.

(** The contract of the collaborators on time lengths ([tlen] of a tensor,
    [mlen] of a mask), as the specification states it: an embedder that takes
    the mask returns activations and mask of one length; a [Sequential]
    front end keeps the time axis; a layer called without cache keeps the
    lengths of both; normalisation, the conditioning modules and addition
    keep the shape. *)
Class TimeAligned (tlen : Tensor → nat) (mlen : Mask → nat) : Prop := {
  embed_masked_aligned e xs masks :
    tlen xs = mlen masks →
    tlen (call_embed_masked e xs masks).1 = mlen (call_embed_masked e xs masks).2;
  embed_keeps_time members xs :
    tlen (call_embed (Sequential members) xs) = tlen xs;
  layer_keeps_time e xs masks :
    tlen (call_layer e xs masks None).1 = tlen xs ∧
    mlen (call_layer e xs masks None).2 = mlen masks;
  norm_keeps_time n xs : tlen (call_norm n xs) = tlen xs;
  ctc_keeps_time c xs : tlen (call_ctc c xs) = tlen xs;
  linear_keeps_time p xs : tlen (call_linear p xs) = tlen xs;
  add_keeps_time xs ys : tlen ys = tlen xs → tlen (tensor_add xs ys) = tlen xs;
}.

End Forward.


(** The attributes [forward] reads are those [__init__] has set. *)
Definition attrs_ready (self : Encoder) : Prop :=
  (normalize_before self = true → is_Some (after_norm self)) ∧
  (use_conditioning self = true →
   is_Some (ctc_softmax self) ∧ is_Some (conditioning_layer self)).

(** ** Configurations used in the statements *)

(** The tags the [if]/[elif] chain of lines 97-125 compares [input_layer]
    with. *)
Definition recognised_input_tags : list string :=
  ["linear"; "conv2d"; "conv2d-scaled-pos-enc"; "conv2d6"; "conv2d8"; "vgg2l"; "embed"].

(** The string tags the specification enumerates for the input embedder. *)
Definition enumerated_input_tags : list string :=
  ["linear"; "conv2d"; "conv2d-scaled-pos-enc"; "conv2d6"; "conv2d8"; "embed"].

Definition mha_tags : list string := ["selfattn"; "rel_selfattn"; "legacy_rel_selfattn"].

Definition conv_attention_tags : list string :=
  ["lightconv"; "lightconv2d"; "dynamicconv"; "dynamicconv2d"].

Definition positionwise_tags : list string := ["linear"; "conv1d"; "conv1d-linear"].

(** The same arguments with another [intermediate_layers]. *)
Definition set_intermediate_layers (taps : option (list Z)) (a : EncoderArgs) : EncoderArgs :=
  {| idim := idim a; attention_dim := attention_dim a;
     attention_heads := attention_heads a; conv_wshare := conv_wshare a;
     conv_kernel_length := conv_kernel_length a; conv_usebias := conv_usebias a;
     linear_units := linear_units a; num_blocks := num_blocks a;
     dropout_rate := dropout_rate a;
     positional_dropout_rate := positional_dropout_rate a;
     attention_dropout_rate := attention_dropout_rate a;
     input_layer := input_layer a; pos_enc_class := pos_enc_class a;
     arg_normalize_before := arg_normalize_before a; concat_after := concat_after a;
     positionwise_layer_type := positionwise_layer_type a;
     positionwise_conv_kernel_size := positionwise_conv_kernel_size a;
     selfattention_layer_type := selfattention_layer_type a;
     padding_idx := padding_idx a; stochastic_depth_rate := stochastic_depth_rate a;
     arg_intermediate_layers := taps;
     arg_ctc_softmax := arg_ctc_softmax a;
     conditioning_layer_dim := conditioning_layer_dim a |}.

(** The same arguments with [ctc_softmax=None]: the non-conditioned run. *)
Definition without_conditioning (a : EncoderArgs) : EncoderArgs :=
  {| idim := idim a; attention_dim := attention_dim a;
     attention_heads := attention_heads a; conv_wshare := conv_wshare a;
     conv_kernel_length := conv_kernel_length a; conv_usebias := conv_usebias a;
     linear_units := linear_units a; num_blocks := num_blocks a;
     dropout_rate := dropout_rate a;
     positional_dropout_rate := positional_dropout_rate a;
     attention_dropout_rate := attention_dropout_rate a;
     input_layer := input_layer a; pos_enc_class := pos_enc_class a;
     arg_normalize_before := arg_normalize_before a; concat_after := concat_after a;
     positionwise_layer_type := positionwise_layer_type a;
     positionwise_conv_kernel_size := positionwise_conv_kernel_size a;
     selfattention_layer_type := selfattention_layer_type a;
     padding_idx := padding_idx a; stochastic_depth_rate := stochastic_depth_rate a;
     arg_intermediate_layers := arg_intermediate_layers a;
     arg_ctc_softmax := None;
     conditioning_layer_dim := conditioning_layer_dim a |}.

(** Concrete arguments: the defaults of the signature except for the listed
    ones. *)
Definition example_args (input : InputLayer) (attention kernels : string)
    (dim : Z) (blocks : nat) (rate : float) (norm : bool) (taps : option (list Z))
    (ctc : option External) (cdim : option Z) : EncoderArgs :=
  {| idim := 80; attention_dim := dim; attention_heads := 1; conv_wshare := 4;
     conv_kernel_length := kernels; conv_usebias := false; linear_units := 2048;
     num_blocks := blocks; dropout_rate := 0.1; positional_dropout_rate := 0.1;
     attention_dropout_rate := 0; input_layer := input;
     pos_enc_class := PositionalEncoding; arg_normalize_before := norm;
     concat_after := false; positionwise_layer_type := "linear";
     positionwise_conv_kernel_size := 1; selfattention_layer_type := attention;
     padding_idx := -1; stochastic_depth_rate := rate;
     arg_intermediate_layers := taps; arg_ctc_softmax := ctc;
     conditioning_layer_dim := cdim |}.

(** ** A concrete instance of the collaborators

    One batch element and hidden size one: a tensor is the list of the
    single values of its frames, a mask the list of their flags. *)

(** Strided selection: the elements at positions [i], [i + k], ... *)
Fixpoint stride_from {A} (k i : nat) (l : list A) : list A :=
  match l with
  | [] => []
  | x :: rest =>
      match i with
      | O => x :: stride_from k (k - 1) rest
      | S i' => stride_from k i' rest
      end
  end.

Definition embed_stride (e : EmbedModule) : nat :=
  match e with
  | Conv2dSubsampling _ _ _ _ => 4
  | Conv2dSubsampling6 _ _ _ => 6
  | Conv2dSubsampling8 _ _ _ => 8
  | VGG2L _ _ => 4
  | Sequential _ => 1
  end.

(** Layer normalisation over a hidden dimension of size one, with the
    initial weight 1 and bias 0 and eps = 1e-12: the mean of a frame is its
    only value and the variance is 0, so the result is
    [(v - v) / sqrt(0 + eps) * 1 + 0], with [1 / sqrt eps = 10^6]. *)
Definition layer_norm_1 (v : Z) : Z := (v - v) * 1000000 * 1 + 0.

#[local] Instance scalar_frames : Collaborators (list Z) (list bool) := {|
  call_embed_masked e xs masks :=
    (stride_from (embed_stride e) 0 xs, stride_from (embed_stride e) 0 masks);
  call_embed e xs := stride_from (embed_stride e) 0 xs;
  call_layer e xs masks c :=
    (match c with Some history => history ++ map (Z.add 1) xs
                | None => map (Z.add 1) xs end, masks);
  call_norm n xs := map layer_norm_1 xs;
  call_ctc c xs := map (λ _, 1) xs;
  call_linear p xs := map (λ v, 1 * v + 0) xs;
  tensor_add xs ys := zip_with Z.add xs ys;
|}.

(** In [scalar_frames], the auxiliary prediction is a softmax over a single
    class, which is 1 for every frame, and the conditioning layer is a
    [Linear(1, 1)] with weight 1 and bias 0. *)

(** Arguments for encoders of hidden size one with two blocks. *)
Definition scalar_args (input : InputLayer) (norm : bool) (taps : option (list Z))
    (ctc : option External) (cdim : option Z) : EncoderArgs :=
  example_args input "selfattn" "11" 1 2 0 norm taps ctc cdim.

Definition frames9 : list Z := [3; 1; 4; 1; 5; 9; 2; 6; 5].
Definition mask9 : list bool := replicate 9 true.
Definition frames3 : list Z := [3; 1; 4].
Definition mask3 : list bool := replicate 3 true.

(** The string tags for which the constructor builds a front end. *)
Definition working_input_tags : list string :=
  ["linear"; "conv2d"; "conv2d-scaled-pos-enc"; "conv2d6"; "conv2d8"; "embed"].

(** The encoder layer the builder creates at position [lnum] when the
    attention type is one of the multi-head tags. *)
Definition expected_layer (a : EncoderArgs)
    (positionwise : PositionwiseClass * PositionwiseArgs) (lnum : nat) : EncoderLayer :=
  {| layer_size := attention_dim a;
     self_attn := (MultiHeadedAttention,
                   AttnArgs (attention_heads a) (attention_dim a)
                            (attention_dropout_rate a));
     feed_forward := positionwise;
     layer_dropout_rate := dropout_rate a;
     layer_normalize_before := arg_normalize_before a;
     layer_concat_after := concat_after a;
     layer_stochastic_depth_rate :=
       layer_skip_rate (stochastic_depth_rate a) lnum (num_blocks a) |}.
(** * Proofs *)

(** ** The error monad *)

Lemma bind_Ok_inv {A B} (m : result A) (f : A → result B) (b : B) :
  m ≫= f = Ok b → ∃ a, m = Ok a ∧ f a = Ok b.
Proof. destruct m as [a|e]; simpl; [eauto | discriminate]. Qed.

Lemma bind_Ok {A B} (m : result A) (f : A → result B) (a : A) :
  m = Ok a → m ≫= f = f a.
Proof. by intros ->. Qed.

Lemma bind_Raise {A B} (m : result A) (f : A → result B) (e : PyError) :
  m = Raise e → m ≫= f = Raise e.
Proof. by intros ->. Qed.

Ltac inv_bind H :=
  repeat match type of H with
  | _ ≫= _ = Ok _ =>
      let a := fresh "a" in
      let Ha := fresh "Ha" in
      apply bind_Ok_inv in H as (a & Ha & H)
  | Ok _ = Ok _ => injection H as H
  | Raise _ = Ok _ => discriminate H
  | (let '(_, _) := ?p in _) = Ok _ => destruct p
  end.

Lemma mapM_result_length {A B} (f : A → result B) (l : list A) (k : list B) :
  mapM f l = Ok k → length k = length l.
Proof.
  revert k. induction l as [|x l IH]; intros k H; simpl in H.
  - by injection H as <-.
  - apply bind_Ok_inv in H as (y & _ & H).
    apply bind_Ok_inv in H as (k' & Hk' & H).
    injection H as <-. simpl. f_equal. by apply IH.
Qed.

Lemma mapM_result_lookup {A B} (f : A → result B) (l : list A) (k : list B) i x :
  mapM f l = Ok k → l !! i = Some x → ∃ y, f x = Ok y ∧ k !! i = Some y.
Proof.
  revert k i. induction l as [|x' l IH]; intros k i H Hi; [done|].
  simpl in H.
  apply bind_Ok_inv in H as (y & Hy & H).
  apply bind_Ok_inv in H as (k' & Hk' & H).
  injection H as <-.
  destruct i as [|i]; simpl in *.
  - injection Hi as <-. eauto.
  - eauto.
Qed.

Lemma mapM_result_Ok {A B} (f : A → result B) (l : list A) :
  (∀ x, x ∈ l → is_Ok (f x)) → is_Ok (mapM f l).
Proof.
  induction l as [|x l IH]; intros H; simpl.
  - by eexists.
  - destruct (H x) as [y Hy]; [by left|].
    destruct IH as [k Hk]; [intros z Hz; apply H; by right|].
    rewrite Hy. simpl. rewrite Hk. simpl. by eexists.
Qed.

(** The first failing element decides the error of a comprehension. *)
Lemma mapM_result_Raise {A B} (f : A → result B) (l1 l2 : list A) (k : list B) x e :
  mapM f l1 = Ok k → f x = Raise e → mapM f (l1 ++ x :: l2) = Raise e.
Proof.
  revert k. induction l1 as [|x' l1 IH]; intros k H Hx; simpl in *.
  - by rewrite Hx.
  - apply bind_Ok_inv in H as (y & Hy & H).
    apply bind_Ok_inv in H as (k' & Hk' & H).
    rewrite Hy. simpl. by rewrite (IH _ Hk' Hx).
Qed.

(** ** Tags and global names *)

Lemma eqb_outside (t s : string) (l : list string) :
  t ∉ l → s ∈ l → String.eqb t s = false.
Proof. intros Ht Hs. apply String.eqb_neq. by intros ->. Qed.

Ltac tag_in_list := apply (bool_decide_unpack _); vm_compute; exact I.
Ltac tag_not_in_list :=
  let H := fresh in
  intros H; apply (bool_decide_eq_true_2 _) in H; vm_compute in H; discriminate H.

Lemma load_global_Ok name : name ∈ module_globals → load_global name = Ok ().
Proof. intros H. unfold load_global. by rewrite bool_decide_eq_true_2. Qed.

Lemma load_global_unbound name :
  name ∉ module_globals → load_global name = Raise (NameError name).
Proof. intros H. unfold load_global. by rewrite bool_decide_eq_false_2. Qed.

#[global] Opaque load_global.

(** One step of the error monad, and the global names read on the way. *)
Ltac mstep := cbn [mbind result_bind mret result_ret].
Ltac mstep_in H := cbn [mbind result_bind mret result_ret] in H.
Ltac resolve_globals_in H :=
  repeat first
    [ rewrite load_global_Ok in H by tag_in_list
    | rewrite load_global_unbound in H by tag_not_in_list ];
  mstep_in H.
Ltac resolve_globals :=
  repeat first
    [ rewrite load_global_Ok by tag_in_list
    | rewrite load_global_unbound by tag_not_in_list ];
  mstep.

(** ** The constructor *)

Lemma Encoder_init_inv a self :
  Encoder_init a = Ok self →
  ∃ em factor positionwise cls args layers,
    init_embed a = Ok (em, factor) ∧
    get_positionwise_layer (positionwise_layer_type a) (attention_dim a)
      (linear_units a) (dropout_rate a) (positionwise_conv_kernel_size a)
      = Ok positionwise ∧
    init_selfattn a = Ok (cls, args) ∧
    repeat (num_blocks a) (new_encoder_layer a positionwise cls args) = Ok layers ∧
    (arg_ctc_softmax a ≠ None → is_Some (conditioning_layer_dim a)) ∧
    self = built_from a em factor layers.
Proof.
  unfold Encoder_init. intros H.
  apply bind_Ok_inv in H as ([em factor] & Hem & H).
  apply bind_Ok_inv in H as (pw & Hpw & H).
  apply bind_Ok_inv in H as ([cls args] & Hsa & H).
  apply bind_Ok_inv in H as ([] & _ & H).
  apply bind_Ok_inv in H as (layers & Hl & H).
  apply bind_Ok_inv in H as (an & Han & H).
  apply bind_Ok_inv in H as (cl & Hcl & H).
  injection H as <-.
  exists em, factor, pw, cls, args, layers.
  repeat split; try done.
  - intros Hc. rewrite bool_decide_eq_true_2 in Hcl by done.
    destruct (conditioning_layer_dim a); [by eexists | discriminate].
  - unfold built_from. f_equal.
    + destruct (arg_normalize_before a); resolve_globals_in Han;
        by injection Han as <-.
    + destruct (bool_decide (arg_ctc_softmax a ≠ None)).
      * destruct (conditioning_layer_dim a); [by injection Hcl as <- | discriminate].
      * by injection Hcl as <-.
Qed.

Lemma Encoder_init_built a em factor positionwise cls args layers :
  init_embed a = Ok (em, factor) →
  get_positionwise_layer (positionwise_layer_type a) (attention_dim a)
    (linear_units a) (dropout_rate a) (positionwise_conv_kernel_size a)
    = Ok positionwise →
  init_selfattn a = Ok (cls, args) →
  repeat (num_blocks a) (new_encoder_layer a positionwise cls args) = Ok layers →
  (arg_ctc_softmax a ≠ None → is_Some (conditioning_layer_dim a)) →
  Encoder_init a = Ok (built_from a em factor layers).
Proof.
  intros Hem Hpw Hsa Hl Hc. unfold Encoder_init.
  rewrite Hem. mstep. rewrite Hpw. mstep. rewrite Hsa. mstep.
  resolve_globals. rewrite Hl. mstep.
  unfold built_from.
  destruct (arg_normalize_before a); mstep;
    (destruct (bool_decide_reflect (arg_ctc_softmax a ≠ None)) as [Hne|_]; mstep;
     [destruct (Hc Hne) as [d ->]; reflexivity | reflexivity]).
Qed.

Lemma repeat_layers_lookup a positionwise cls args layers :
  repeat (num_blocks a) (new_encoder_layer a positionwise cls args) = Ok layers →
  length layers = num_blocks a ∧
  ∀ i e, layers !! i = Some e →
    (i < num_blocks a)%nat ∧
    layer_stochastic_depth_rate e
    = layer_skip_rate (stochastic_depth_rate a) i (num_blocks a).
Proof.
  unfold repeat. intros H.
  pose proof (mapM_result_length _ _ _ H) as Hlen. rewrite length_seq in Hlen.
  split; [done|]. intros i e Hi.
  assert (i < num_blocks a)%nat as Hlt.
  { rewrite <- Hlen. by eapply lookup_lt_Some. }
  split; [done|].
  destruct (mapM_result_lookup _ _ _ i i H) as (e' & He' & Hi').
  { by rewrite lookup_seq_lt. }
  assert (e' = e) as -> by congruence.
  unfold new_encoder_layer in He'.
  apply bind_Ok_inv in He' as ([] & _ & He').
  apply bind_Ok_inv in He' as (attn & _ & He').
  by injection He' as <-.
Qed.




(** C7, as the code has it. For every string tag that the constructor's chain
    of comparisons does not list (linear, conv2d, conv2d-scaled-pos-enc,
    conv2d6, conv2d8, vgg2l, embed), construction fails with a [ValueError]
    whose message is "unknown input_layer: " followed by the tag; no encoder
    object exists on which [forward] could be called. *)
Theorem unknown_input_layer_rejected a t :
  input_layer a = Tag t →
  t ∉ recognised_input_tags →
  Encoder_init a = Raise (ValueError ("unknown input_layer: " +:+ t)).
Proof.
  intros Ht Hout. unfold Encoder_init, init_embed. rewrite Ht.
  rewrite !(eqb_outside t _ recognised_input_tags Hout) by tag_in_list.
  reflexivity.
Qed.

Lemma unknown_input_layer_rejected_witness :
  Encoder_init (example_args (Tag "bogus") "selfattn" "11" 256 6 0 true None None None)
  = Raise (ValueError "unknown input_layer: bogus").
Proof.
  apply (unknown_input_layer_rejected _ "bogus"); [reflexivity | tag_not_in_list].
Defined.

(** C7 as stated fails at the tag "vgg2l": it is not one of the enumerated
    variants, yet construction stops with a [NameError] for the class name
    [VGG2L], which the module never imports, and not with an error naming the
    tag. *)
Lemma vgg2l_input_layer_name_error :
  ("vgg2l" ∉ enumerated_input_tags) ∧
  (Encoder_init (example_args (Tag "vgg2l") "selfattn" "11" 256 6 0 true None None None)
   = Raise (NameError "VGG2L")).
Proof. split; [tag_not_in_list | vm_compute; reflexivity]. Qed.

(** ** Attention and feed-forward tags *)

(** X12. A position-wise tag other than linear, conv1d and conv1d-linear
    stops construction with [NotImplementedError], whatever the attention
    tag is: the position-wise layer is chosen first. *)
Lemma unknown_positionwise_rejected a :
  is_Ok (init_embed a) →
  positionwise_layer_type a ∉ positionwise_tags →
  Encoder_init a = Raise (NotImplementedError "Support only linear or conv1d.").
Proof.
  intros [[em f] Hem] Hout. unfold Encoder_init. rewrite Hem. mstep.
  unfold get_positionwise_layer.
  rewrite !(eqb_outside _ _ positionwise_tags Hout) by tag_in_list.
  reflexivity.
Qed.

Lemma get_positionwise_layer_Ok t d u r k :
  t ∈ positionwise_tags → is_Ok (get_positionwise_layer t d u r k).
Proof.
  unfold positionwise_tags. rewrite !elem_of_cons, elem_of_nil.
  intros [-> | [-> | [-> | []]]]; unfold get_positionwise_layer;
    vm_compute; by eexists.
Qed.

(** X13. With a valid position-wise tag, an attention tag outside the seven
    the chain compares with stops construction with [NotImplementedError]
    carrying the tag. *)
Lemma unknown_selfattention_rejected a :
  is_Ok (init_embed a) →
  positionwise_layer_type a ∈ positionwise_tags →
  selfattention_layer_type a ∉ mha_tags ++ conv_attention_tags →
  Encoder_init a = Raise (NotImplementedError (selfattention_layer_type a)).
Proof.
  intros [[em f] Hem] Hpw Hout. unfold Encoder_init. rewrite Hem. mstep.
  destruct (get_positionwise_layer_Ok _ (attention_dim a) (linear_units a)
              (dropout_rate a) (positionwise_conv_kernel_size a) Hpw) as [pw ->].
  mstep. unfold init_selfattn.
  rewrite (bool_decide_eq_false_2 (selfattention_layer_type a ∈ _)).
  2:{ intros Hin. apply Hout. apply elem_of_app. left. exact Hin. }
  rewrite !(eqb_outside _ _ _ Hout) by tag_in_list.
  reflexivity.
Qed.

(** X14. The convolutional attention classes are never imported: selecting
    one of them stops at the class name, before the kernel string is read. *)
Lemma conv_attention_name_error a :
  is_Ok (init_embed a) →
  positionwise_layer_type a ∈ positionwise_tags →
  selfattention_layer_type a ∈ conv_attention_tags →
  ∃ cls, Encoder_init a = Raise (NameError cls).
Proof.
  intros [[em f] Hem] Hpw Hin. unfold Encoder_init. rewrite Hem. mstep.
  destruct (get_positionwise_layer_Ok _ (attention_dim a) (linear_units a)
              (dropout_rate a) (positionwise_conv_kernel_size a) Hpw) as [pw ->].
  mstep. unfold init_selfattn, conv_attention_tags in *.
  rewrite !elem_of_cons, elem_of_nil in Hin.
  destruct Hin as [-> | [-> | [-> | [-> | []]]]];
    (rewrite (bool_decide_eq_false_2 (_ ∈ [_; _; _])) by tag_not_in_list);
    cbn [String.eqb Ascii.eqb Bool.eqb]; resolve_globals; by eexists.
Qed.

(** X15. What the comprehension of a convolutional branch does with a kernel
    string of fewer entries than layers, all of them integers: the index
    past the last entry raises [IndexError]. *)
Lemma short_kernel_string_index_error a :
  Forall (λ s, is_Ok (py_int s)) (split_on "_" (conv_kernel_length a)) →
  (length (split_on "_" (conv_kernel_length a)) < num_blocks a)%nat →
  conv_selfattn_layer_args a = Raise (IndexError "list index out of range").
Proof.
  intros Hint Hlen. unfold conv_selfattn_layer_args.
  set (parts := split_on "_" (conv_kernel_length a)) in *.
  set (f := λ lnum : nat, _).
  assert (num_blocks a = length parts + S (num_blocks a - S (length parts)))%nat
    as -> by lia.
  rewrite seq_app. cbn [seq].
  assert (is_Ok (mapM f (seq 0 (length parts)))) as [k Hk].
  { apply mapM_result_Ok. intros i Hi. apply elem_of_seq in Hi.
    destruct (lookup_lt_is_Some_2 parts i) as [s Hs]; [lia|].
    rewrite Forall_forall in Hint.
    destruct (Hint s) as [v Hv]. { by eapply list_elem_of_lookup_2. }
    unfold f, py_index. rewrite Hs. mstep. rewrite Hv. by eexists. }
  eapply mapM_result_Raise; [exact Hk|].
  unfold f, py_index. by rewrite lookup_ge_None_2.
Qed.

(** C8 at its failing input: the convolutional variant "lightconv" with the
    kernel string "3_3" and four blocks. Construction fails with a
    [NameError] for the class [LightweightConvolution]; the comprehension
    that would have read the kernel string raises the [IndexError] of the
    claim, but is never reached. *)
Theorem short_kernel_string_name_error :
  let a := example_args (Tag "conv2d") "lightconv" "3_3" 256 4 0 true None None None in
  Encoder_init a = Raise (NameError "LightweightConvolution") ∧
  conv_selfattn_layer_args a = Raise (IndexError "list index out of range").
Proof. split; vm_compute; reflexivity. Qed.

(** ** The subsampling factor *)

(** Case analysis on the tag of [init_embed a = Ok _]: the six tags that
    build a front end, then the rest, which cannot succeed. *)
Ltac embed_tag_cases t Hem tac :=
  destruct (decide (t = "linear")) as [->|?]; [vm_compute in Hem; tac|];
  destruct (decide (t = "conv2d")) as [->|?]; [vm_compute in Hem; tac|];
  destruct (decide (t = "conv2d-scaled-pos-enc")) as [->|?]; [vm_compute in Hem; tac|];
  destruct (decide (t = "conv2d6")) as [->|?]; [vm_compute in Hem; tac|];
  destruct (decide (t = "conv2d8")) as [->|?]; [vm_compute in Hem; tac|];
  destruct (decide (t = "vgg2l")) as [->|?]; [vm_compute in Hem; discriminate Hem|];
  destruct (decide (t = "embed")) as [->|?]; [vm_compute in Hem; tac|];
  rewrite !(proj2 (String.eqb_neq _ _)) in Hem by assumption;
  discriminate Hem.

Ltac embed_case Ht Hem :=
  rewrite Ht in Hem; vm_compute in Hem; congruence.

Lemma attributes_conv_subsampling_factor self :
  attributes self !! "conv_subsampling_factor"
  = Some (AInt (conv_subsampling_factor self)).
Proof.
  unfold attributes, set_if_some.
  destruct (conditioning_layer self), (ctc_softmax self), (after_norm self);
    by simplify_map_eq.
Qed.

Lemma attributes_no_subsampling_factor self :
  attributes self !! "subsampling_factor" = None.
Proof.
  unfold attributes, set_if_some.
  destruct (conditioning_layer self), (ctc_softmax self), (after_norm self);
    by simplify_map_eq.
Qed.

(** C9, as the code has it. Construction sets the attribute
    [conv_subsampling_factor] on the encoder: 4 for conv2d and
    conv2d-scaled-pos-enc, 6 for conv2d6, 8 for conv2d8, and 1 for linear,
    embed, an externally supplied module and no input layer. *)
Theorem conv_subsampling_factor_values a self :
  Encoder_init a = Ok self →
  attributes self !! "conv_subsampling_factor"
    = Some (AInt (conv_subsampling_factor self)) ∧
  (input_layer a = Tag "conv2d" ∨ input_layer a = Tag "conv2d-scaled-pos-enc" →
   conv_subsampling_factor self = 4) ∧
  (input_layer a = Tag "conv2d6" → conv_subsampling_factor self = 6) ∧
  (input_layer a = Tag "conv2d8" → conv_subsampling_factor self = 8) ∧
  (input_layer a = Tag "linear" ∨ input_layer a = Tag "embed" ∨
   (∃ m, input_layer a = ModuleInstance m) ∨ input_layer a = NoInputLayer →
   conv_subsampling_factor self = 1).
Proof.
  intros H. split; [apply attributes_conv_subsampling_factor|].
  apply Encoder_init_inv in H
    as (em & factor & pw & cls & args & layers & Hem & _ & _ & _ & _ & ->).
  cbn [conv_subsampling_factor built_from]. unfold init_embed in Hem.
  repeat split.
  - intros [Ht | Ht]; embed_case Ht Hem.
  - intros Ht; embed_case Ht Hem.
  - intros Ht; embed_case Ht Hem.
  - intros [Ht | [Ht | [[m Ht] | Ht]]]; embed_case Ht Hem.
Qed.

Lemma conv_subsampling_factor_values_witness :
  ∃ self,
    Encoder_init (example_args (Tag "conv2d6") "selfattn" "11" 256 6 0 true
                               None None None) = Ok self ∧
    attributes self !! "conv_subsampling_factor" = Some (AInt 6).
Proof.
  eexists. split; [vm_compute; reflexivity|].
  lazymatch goal with
  | |- attributes ?s !! _ = _ =>
      destruct (conv_subsampling_factor_values
                  (example_args (Tag "conv2d6") "selfattn" "11" 256 6 0 true
                                None None None) s) as (Hattr & _)
  end.
  - vm_compute; reflexivity.
  - exact Hattr.
Defined.

(** C9 as stated fails on the attribute's name: the constructed encoder has
    no attribute [subsampling_factor]. *)
Lemma no_subsampling_factor_attribute :
  ∃ self,
    Encoder_init (default_args 80) = Ok self ∧
    attributes self !! "subsampling_factor" = None ∧
    attributes self !! "conv_subsampling_factor" = Some (AInt 4).
Proof.
  eexists. split; [vm_compute; reflexivity|].
  split; [apply attributes_no_subsampling_factor|].
  by rewrite attributes_conv_subsampling_factor.
Qed.

(** ** Encoders returned by the constructor *)

Lemma Encoder_init_ready a self : Encoder_init a = Ok self → attrs_ready self.
Proof.
  intros H.
  apply Encoder_init_inv in H
    as (em & factor & pw & cls & args & layers & _ & _ & _ & _ & Hc & ->).
  unfold attrs_ready, built_from.
  cbn [normalize_before after_norm use_conditioning ctc_softmax conditioning_layer].
  split.
  - intros ->. by eexists.
  - intros Hu. rewrite Hu. apply bool_decide_eq_true_1 in Hu.
    destruct (Hc Hu) as [d ->]. split; [|by eexists].
    destruct (arg_ctc_softmax a); [by eexists | done].
Qed.

Ltac embed_result Ht Hem :=
  rewrite Ht in Hem; vm_compute in Hem; injection Hem as <- _; by repeat eexists.

(** The front end of a constructed encoder is one of the imported
    subsampling classes or a [Sequential]; which one is fixed by the tag. *)
Lemma Encoder_init_embed a self :
  Encoder_init a = Ok self →
  (input_layer a = Tag "conv2d" ∨ input_layer a = Tag "conv2d-scaled-pos-enc" →
   ∃ i o r p, embed self = Conv2dSubsampling i o r p) ∧
  (input_layer a = Tag "conv2d6" → ∃ i o r, embed self = Conv2dSubsampling6 i o r) ∧
  (input_layer a = Tag "conv2d8" → ∃ i o r, embed self = Conv2dSubsampling8 i o r) ∧
  (input_layer a ∉ Tag <$> ["conv2d"; "conv2d-scaled-pos-enc"; "conv2d6"; "conv2d8"] →
   ∃ members, embed self = Sequential members).
Proof.
  intros H.
  apply Encoder_init_inv in H
    as (em & factor & pw & cls & args & layers & Hem & _ & _ & _ & _ & ->).
  cbn [embed built_from]. unfold init_embed in Hem.
  split; [|split; [|split]].
  - intros [Ht | Ht]; embed_result Ht Hem.
  - intros Ht; embed_result Ht Hem.
  - intros Ht; embed_result Ht Hem.
  - intros Hout.
    destruct (input_layer a) as [t| |]; [|injection Hem as <- _; by eexists..].
    embed_tag_cases t Hem
      ltac:(first [ injection Hem as <- _; by eexists
                  | exfalso; apply Hout; cbn [fmap list_fmap];
                    rewrite !elem_of_cons;
                    repeat first [ left; reflexivity | right ] ]).
Qed.

Lemma Encoder_init_not_vgg a self :
  Encoder_init a = Ok self → ∀ i o, embed self ≠ VGG2L i o.
Proof.
  intros H i o.
  apply Encoder_init_inv in H
    as (em & factor & pw & cls & args & layers & Hem & _ & _ & _ & _ & ->).
  cbn [embed built_from]. unfold init_embed in Hem.
  destruct (input_layer a) as [t| |]; [|by injection Hem as <- _..].
  embed_tag_cases t Hem ltac:(by injection Hem as <- _).
Qed.

(** ** The forward paths *)

Section ForwardFacts.
Context {Tensor Mask : Type} `{!Collaborators Tensor Mask}.
Implicit Types (self : Encoder) (xs : Tensor) (masks : Mask).

Lemma for_each_app {A S} (body : S → A → result S) (l1 l2 : list A) (st : S) :
  for_each body (l1 ++ l2) st = for_each body l1 st ≫= for_each body l2.
Proof.
  revert st. induction l1 as [|x l1 IH]; intros st; simpl; [done|].
  destruct (body st x); simpl; [apply IH | done].
Qed.

Lemma enumerate_snd {A} (l : list A) : (enumerate l).*2 = l.
Proof. unfold enumerate. apply snd_zip. by rewrite length_seq. Qed.

Lemma enumerate_length {A} (l : list A) : length (enumerate l) = length l.
Proof. unfold enumerate. rewrite length_zip, length_seq. lia. Qed.

Lemma enumerate_lookup {A} (l : list A) i x :
  l !! i = Some x → enumerate l !! i = Some (i, x).
Proof.
  intros Hi. unfold enumerate. apply lookup_zip_with_Some.
  exists i, x. split; [done|]. split; [|done].
  rewrite lookup_seq_lt; [done|]. by eapply lookup_lt_Some.
Qed.

Lemma enumerate_index {A} (l : list A) i j x :
  enumerate l !! i = Some (j, x) → j = i ∧ l !! i = Some x.
Proof.
  unfold enumerate. intros H.
  apply lookup_zip_with_Some in H as (j' & x' & [= <- <-] & Hj & Hx).
  apply lookup_seq in Hj as [-> _]. done.
Qed.

Lemma final_norm_ready self xs :
  attrs_ready self →
  ∃ norm, (normalize_before self = true → after_norm self = Some norm) ∧
          final_norm self xs = Ok (captured self norm xs).
Proof.
  intros [Hn _]. unfold final_norm, captured.
  destruct (normalize_before self).
  - destruct (Hn eq_refl) as [norm Hnorm]. exists norm. by rewrite Hnorm.
  - exists (LayerNorm 0). done.
Qed.

(** Without conditioning the tap loop runs the layers exactly as the
    container does; a tap only appends to the intermediate outputs. *)
Lemma tap_loop_observes self (l : list (nat * EncoderLayer)) xs masks outs :
  use_conditioning self = false →
  attrs_ready self →
  ∃ outs', for_each (tap_body self) l (xs, masks, outs)
           = Ok (call_encoders (l.*2) xs masks, outs').
Proof.
  intros Hc Hr. revert xs masks outs.
  induction l as [|[idx e] l IH]; intros xs masks outs.
  - by eexists.
  - simpl. unfold call_encoders. simpl.
    destruct (call_layer e xs masks None) as [xs1 masks1] eqn:Hl.
    destruct (is_tap self idx).
    + destruct (final_norm_ready self xs1 Hr) as (norm & _ & ->). simpl.
      rewrite Hc. simpl. apply IH.
    + simpl. apply IH.
Qed.

Lemma forward_without_taps self xs masks :
  intermediate_layers self = None →
  forward self xs masks = (λ r, (r, None)) <$> main_path self xs masks.
Proof.
  intros Hi. unfold forward, main_path. rewrite Hi.
  destruct (embed_batch self xs masks) as [xs0 masks0].
  destruct (call_encoders (encoders self) xs0 masks0) as [xs1 masks1]. simpl.
  by destruct (final_norm self xs1).
Qed.

Lemma forward_with_taps self taps xs masks :
  intermediate_layers self = Some taps →
  use_conditioning self = false →
  attrs_ready self →
  ∃ outs, forward self xs masks = (λ r, (r, Some outs)) <$> main_path self xs masks.
Proof.
  intros Hi Hc Hr. unfold forward, main_path. rewrite Hi.
  destruct (embed_batch self xs masks) as [xs0 masks0].
  destruct (tap_loop_observes self (enumerate (encoders self)) xs0 masks0 [] Hc Hr)
    as [outs ->].
  rewrite enumerate_snd. exists outs.
  destruct (call_encoders (encoders self) xs0 masks0) as [xs1 masks1]. simpl.
  by destruct (final_norm self xs1).
Qed.

Lemma main_path_ready self xs masks :
  attrs_ready self → is_Ok (main_path self xs masks).
Proof.
  intros Hr. unfold main_path.
  destruct (embed_batch self xs masks) as [xs0 masks0].
  destruct (call_encoders (encoders self) xs0 masks0) as [xs1 masks1].
  destruct (final_norm_ready self xs1 Hr) as (norm & _ & ->). by eexists.
Qed.

(** C2. With conditioning disabled, the encoder built with intermediate taps
    returns the same final activations and the same final mask as the
    encoder built from the same arguments with [intermediate_layers=None];
    the taps only add the sequence of intermediate outputs to the result. *)
Theorem tap_transparency a taps self0 xs masks :
  arg_ctc_softmax a = None →
  Encoder_init (set_intermediate_layers None a) = Ok self0 →
  ∃ self1 x m outs,
    Encoder_init (set_intermediate_layers (Some taps) a) = Ok self1 ∧
    forward self0 xs masks = Ok (x, m, None) ∧
    forward self1 xs masks = Ok (x, m, Some outs).
Proof.
  intros Hctc H0.
  pose proof (Encoder_init_ready _ _ H0) as Hr0.
  apply Encoder_init_inv in H0
    as (em & factor & pw & cls & args & layers & Hem & Hpw & Hsa & Hl & Hc & ->).
  pose proof (Encoder_init_built (set_intermediate_layers (Some taps) a)
                em factor pw cls args layers Hem Hpw Hsa Hl Hc) as H1.
  pose proof (Encoder_init_ready _ _ H1) as Hr1.
  set (self0 := built_from (set_intermediate_layers None a) em factor layers) in *.
  set (self1 := built_from (set_intermediate_layers (Some taps) a) em factor layers) in *.
  destruct (main_path_ready self0 xs masks Hr0) as [[x m] Hmain].
  assert (use_conditioning self1 = false) as Hu.
  { unfold self1, built_from.
    cbn [use_conditioning arg_ctc_softmax set_intermediate_layers].
    rewrite Hctc. apply bool_decide_eq_false_2. intros Hne. by apply Hne. }
  destruct (forward_with_taps self1 taps xs masks eq_refl Hu Hr1) as [outs Hf1].
  exists self1, x, m, outs. split; [done|]. split.
  - rewrite forward_without_taps by done. by rewrite Hmain.
  - rewrite Hf1. change (main_path self1 xs masks) with (main_path self0 xs masks).
    by rewrite Hmain.
Qed.

Lemma forward_batch_state self xs masks :
  forward self xs masks
  = '(x, m, outs) ← batch_state self (length (encoders self)) xs masks;
    y ← final_norm self x;
    Ok (y, m, match intermediate_layers self with
              | Some _ => Some outs
              | None => None
              end).
Proof.
  unfold forward, batch_state.
  destruct (embed_batch self xs masks) as [xs0 masks0].
  rewrite !take_ge by (by rewrite ?enumerate_length).
  destruct (intermediate_layers self).
  - destruct (for_each _ _ _) as [[[x m] outs]|]; [|done]. simpl.
    by destruct (final_norm self x).
  - destruct (call_encoders _ _ _) as [x m]. simpl.
    by destruct (final_norm self x).
Qed.

Section TimeLengths.
Context (tlen : Tensor → nat) (mlen : Mask → nat) `{!TimeAligned tlen mlen}.

Lemma embed_batch_aligned self xs masks :
  (∀ i o, embed self ≠ VGG2L i o) →
  tlen xs = mlen masks →
  tlen (embed_batch self xs masks).1 = mlen (embed_batch self xs masks).2.
Proof.
  intros Hv Hx. unfold embed_batch.
  destruct (embed self) as [| | |i o|members] eqn:He; simpl;
    try by apply embed_masked_aligned.
  - by destruct (Hv i o).
  - by rewrite embed_keeps_time.
Qed.

Lemma call_encoders_keeps_time (l : list EncoderLayer) xs masks :
  tlen (call_encoders l xs masks).1 = tlen xs ∧
  mlen (call_encoders l xs masks).2 = mlen masks.
Proof.
  revert xs masks. induction l as [|e l IH]; intros xs masks; [done|].
  unfold call_encoders. simpl.
  destruct (call_layer e xs masks None) as [xs1 masks1] eqn:Hl.
  destruct (layer_keeps_time e xs masks) as [Hx Hm]. rewrite Hl in Hx, Hm.
  destruct (IH xs1 masks1) as [Hx' Hm']. unfold call_encoders in Hx', Hm'.
  simpl in *. split; congruence.
Qed.

Lemma tap_body_keeps_time self xs masks outs it :
  attrs_ready self →
  ∃ xs' masks' outs',
    tap_body self (xs, masks, outs) it = Ok (xs', masks', outs') ∧
    tlen xs' = tlen xs ∧ mlen masks' = mlen masks.
Proof.
  intros Hr. destruct it as [idx e]. simpl.
  destruct (call_layer e xs masks None) as [xs1 masks1] eqn:Hl.
  destruct (layer_keeps_time e xs masks) as [Hx Hm]. rewrite Hl in Hx, Hm.
  simpl in Hx, Hm.
  destruct (is_tap self idx); [|by eauto 10].
  destruct (final_norm_ready self xs1 Hr) as (norm & _ & ->). simpl.
  destruct (use_conditioning self) eqn:Hu; [|by eauto 10].
  destruct Hr as [_ Hc]. destruct (Hc Hu) as [[ctc ->] [proj ->]]. simpl.
  do 3 eexists. split; [done|]. split; [|done].
  rewrite add_keeps_time; [done|].
  rewrite linear_keeps_time, ctc_keeps_time. unfold captured.
  destruct (normalize_before self); [by rewrite norm_keeps_time | done].
Qed.

Lemma tap_loop_keeps_time self (l : list (nat * EncoderLayer)) xs masks outs :
  attrs_ready self →
  ∃ xs' masks' outs',
    for_each (tap_body self) l (xs, masks, outs) = Ok (xs', masks', outs') ∧
    tlen xs' = tlen xs ∧ mlen masks' = mlen masks.
Proof.
  intros Hr. revert xs masks outs.
  induction l as [|it l IH]; intros xs masks outs; [by eauto 10|].
  cbn [for_each].
  destruct (tap_body_keeps_time self xs masks outs it Hr)
    as (xs1 & masks1 & outs1 & -> & Hx & Hm).
  destruct (IH xs1 masks1 outs1) as (xs2 & masks2 & outs2 & H2 & Hx2 & Hm2).
  simpl. rewrite H2. do 3 eexists. split; [done|]. split; congruence.
Qed.

Lemma batch_state_aligned self k xs masks :
  attrs_ready self →
  (∀ i o, embed self ≠ VGG2L i o) →
  tlen xs = mlen masks →
  ∃ x m outs, batch_state self k xs masks = Ok (x, m, outs) ∧ tlen x = mlen m.
Proof.
  intros Hr Hv Hx. unfold batch_state.
  pose proof (embed_batch_aligned self xs masks Hv Hx) as He.
  destruct (embed_batch self xs masks) as [xs0 masks0]. simpl in He.
  destruct (intermediate_layers self).
  - destruct (tap_loop_keeps_time self (take k (enumerate (encoders self)))
                xs0 masks0 [] Hr) as (x & m & outs & -> & Hx' & Hm').
    do 3 eexists. split; [done|]. congruence.
  - destruct (call_encoders_keeps_time (take k (encoders self)) xs0 masks0)
      as [Hx' Hm'].
    destruct (call_encoders _ _ _) as [x m]. simpl in *.
    do 3 eexists. split; [done|]. congruence.
Qed.

(** C3. For an input whose mask is as long as its activations, the mask and
    the activations of batch [forward] have the same time length right after
    the input embedder, after every encoder layer, and in the returned
    result, for every encoder the constructor returns. *)
Theorem mask_time_alignment a self xs masks :
  Encoder_init a = Ok self →
  tlen xs = mlen masks →
  tlen (embed_batch self xs masks).1 = mlen (embed_batch self xs masks).2 ∧
  (∀ k, ∃ x m outs,
     batch_state self k xs masks = Ok (x, m, outs) ∧ tlen x = mlen m) ∧
  ∃ x m outs, forward self xs masks = Ok (x, m, outs) ∧ tlen x = mlen m.
Proof.
  intros H Hx.
  pose proof (Encoder_init_ready _ _ H) as Hr.
  pose proof (Encoder_init_not_vgg _ _ H) as Hv.
  split; [by apply embed_batch_aligned|].
  split; [intros k; by apply batch_state_aligned|].
  rewrite forward_batch_state.
  destruct (batch_state_aligned self (length (encoders self)) xs masks Hr Hv Hx)
    as (x & m & outs & -> & Hxm).
  simpl. destruct (final_norm_ready self x Hr) as (norm & _ & ->). simpl.
  do 3 eexists. split; [done|].
  unfold captured. destruct (normalize_before self); [|done].
  by rewrite norm_keeps_time.
Qed.

End TimeLengths.

(** ** The one-step path *)

(** The embedding step of [forward_one_step] on a constructed encoder: for
    every front end but conv2d6 and conv2d8 it is the embedding step of
    [forward]; for these two it calls the embedder without the mask that the
    embedder takes. *)
Lemma embed_one_step_as_batch a self xs masks :
  Encoder_init a = Ok self →
  input_layer a ∉ [Tag "conv2d6"; Tag "conv2d8"] →
  embed_one_step self xs masks = Ok (embed_batch self xs masks).
Proof.
  intros H Hout. destruct (Encoder_init_embed _ _ H) as (H4 & _ & _ & Hseq).
  unfold embed_one_step, embed_batch.
  destruct (decide (input_layer a ∈ [Tag "conv2d"; Tag "conv2d-scaled-pos-enc"]))
    as [Hin|Hnot].
  - rewrite !elem_of_cons, elem_of_nil in Hin.
    destruct Hin as [Hin | [Hin | []]].
    + by destruct (H4 (or_introl Hin)) as (i & o & r & p & ->).
    + by destruct (H4 (or_intror Hin)) as (i & o & r & p & ->).
  - destruct Hseq as [members ->]; [|done].
    cbn [fmap list_fmap]. rewrite !elem_of_cons, elem_of_nil in *.
    intros [? | [? | [? | [? | []]]]]; tauto.
Qed.

Lemma embed_one_step_needs_mask a self xs masks :
  Encoder_init a = Ok self →
  input_layer a ∈ [Tag "conv2d6"; Tag "conv2d8"] →
  embed_one_step self xs masks = (xs' ← call_unmasked (embed self) xs; Ok (xs', masks)) ∧
  ∃ msg, call_unmasked (embed self) xs = Raise (TypeError msg).
Proof.
  intros H Hin. destruct (Encoder_init_embed _ _ H) as (_ & H6 & H8 & _).
  unfold embed_one_step, call_unmasked.
  rewrite !elem_of_cons, elem_of_nil in Hin. destruct Hin as [Hin | [Hin | []]].
  - destruct (H6 Hin) as (i & o & r & ->). split; [done | by eexists].
  - destruct (H8 Hin) as (i & o & r & ->). split; [done | by eexists].
Qed.

(** The loop of [forward_one_step] appends one entry per pair it visits:
    the activations the layer returned, computed from the loop state the
    preceding pairs left. *)
Lemma step_loop_cache (l : list (option Tensor * EncoderLayer)) xs masks :
  let final := fold_left step_body l (xs, masks, []) in
  length final.2 = length l ∧
  ∀ i c e, l !! i = Some (c, e) →
    let before := fold_left step_body (take i l) (xs, masks, []) in
    final.2 !! i = Some (call_layer e before.1.1 before.1.2 c).1.
Proof.
  induction l as [|[c e] l IH] using rev_ind; [done|].
  cbn zeta in *. rewrite fold_left_app. simpl.
  destruct IH as [Hlen Hentry].
  destruct (fold_left step_body l (xs, masks, [])) as [[x m] cache] eqn:Hfold.
  simpl in *.
  destruct (call_layer e x m c) as [x1 m1] eqn:Hcall. simpl. split.
  - rewrite !length_app. simpl. lia.
  - intros i c' e' Hi.
    destruct (decide (i < length l)%nat) as [Hlt|Hge].
    + rewrite lookup_app_l in Hi by done.
      rewrite lookup_app_l by lia.
      rewrite take_app_le by lia. by apply Hentry.
    + assert (i = length l) as ->.
      { apply lookup_lt_Some in Hi. rewrite length_app in Hi. simpl in Hi. lia. }
      rewrite list_lookup_middle in Hi by done. injection Hi as <- <-.
      rewrite list_lookup_middle by done.
      rewrite take_app_length, Hfold. simpl. by rewrite Hcall.
Qed.

(** C4, as the code has it. Without a cache, [forward_one_step] starts from
    one null entry per encoder layer. When the front end is not conv2d6 or
    conv2d8 (whose embedders the one-step path calls without their mask) and
    the cache is absent or has one entry per layer, it returns a new cache
    with one entry per layer, and entry i is the activations layer i
    returned in this step, when called on the loop state left by the layers
    before it and on cache entry i. *)
Theorem one_step_cache a self xs masks cache :
  Encoder_init a = Ok self →
  input_layer a ∉ [Tag "conv2d6"; Tag "conv2d8"] →
  (∀ c, cache = Some c → length c = length (encoders self)) →
  init_cache (Tensor:=Tensor) self None = replicate (length (encoders self)) None ∧
  length (init_cache self cache) = length (encoders self) ∧
  ∃ x m new_cache,
    forward_one_step self xs masks cache = Ok (x, m, new_cache) ∧
    length new_cache = length (encoders self) ∧
    ∀ i e, encoders self !! i = Some e →
      ∃ c before,
        init_cache self cache !! i = Some c ∧
        step_state self i xs masks cache = Ok before ∧
        new_cache !! i = Some (call_layer e before.1.1 before.1.2 c).1.
Proof.
  intros H Hfront Hcache.
  pose proof (Encoder_init_ready _ _ H) as Hr.
  assert (length (init_cache self cache) = length (encoders self)) as Hlen.
  { destruct cache as [c|]; simpl; [by apply Hcache | by rewrite length_replicate]. }
  split; [done|]. split; [done|].
  unfold forward_one_step, step_state.
  rewrite (embed_one_step_as_batch a self xs masks H Hfront).
  destruct (embed_batch self xs masks) as [xs0 masks0]. mstep.
  set (pairs := zip (init_cache self cache) (encoders self)).
  destruct (step_loop_cache pairs xs0 masks0) as [Hl Hentry].
  destruct (fold_left step_body pairs (xs0, masks0, [])) as [[x m] new_cache].
  destruct (final_norm_ready self x Hr) as (norm & _ & ->). simpl in *.
  do 3 eexists. split; [done|]. split.
  - rewrite Hl. unfold pairs. rewrite length_zip. lia.
  - intros i e Hi.
    destruct (lookup_lt_is_Some_2 (init_cache self cache) i) as [c Hc].
    { rewrite Hlen. by eapply lookup_lt_Some. }
    exists c. eexists. split; [done|]. split; [done|]. apply Hentry.
    unfold pairs. apply lookup_zip_with_Some. by exists c, e.
Qed.

(** ** Conditioning *)

(** Layers that are not tapped run as in the container, whatever the
    configuration of taps and conditioning. *)
Lemma tap_loop_untapped self (l : list (nat * EncoderLayer)) xs masks outs :
  (∀ it, it ∈ l → is_tap self it.1 = false) →
  for_each (tap_body self) l (xs, masks, outs)
  = Ok (call_encoders (l.*2) xs masks, outs).
Proof.
  revert xs masks. induction l as [|[idx e] l IH]; intros xs masks Hl; [done|].
  cbn [for_each tap_body].
  destruct (call_layer e xs masks None) as [xs1 masks1] eqn:Hcall.
  assert (is_tap self idx = false) as -> by (apply (Hl (idx, e)); by left).
  mstep. rewrite IH by (intros it Hit; apply Hl; by right).
  unfold call_encoders. cbn [fmap list_fmap fold_left fst snd]. by rewrite Hcall.
Qed.

Lemma tap_body_conditioned self norm ctc proj xs masks outs idx e :
  (∀ x, final_norm self x = Ok (captured self norm x)) →
  use_conditioning self = true →
  ctc_softmax self = Some ctc →
  conditioning_layer self = Some proj →
  tap_body self (xs, masks, outs) (idx, e)
  = let r := call_layer e xs masks None in
    if is_tap self idx
    then Ok (tensor_add r.1 (call_linear proj (call_ctc ctc (captured self norm r.1))),
             r.2, outs ++ [captured self norm r.1])
    else Ok (r.1, r.2, outs).
Proof.
  intros Hn Hu Hctc Hproj. cbn [tap_body].
  destruct (call_layer e xs masks None) as [xs1 masks1]. cbn zeta. cbn [fst snd].
  destruct (is_tap self idx); [|done].
  rewrite Hn, Hu, Hctc, Hproj. done.
Qed.

Lemma tap_body_observed self norm xs masks outs idx e :
  (∀ x, final_norm self x = Ok (captured self norm x)) →
  use_conditioning self = false →
  tap_body self (xs, masks, outs) (idx, e)
  = let r := call_layer e xs masks None in
    if is_tap self idx
    then Ok (r.1, r.2, outs ++ [captured self norm r.1])
    else Ok (r.1, r.2, outs).
Proof.
  intros Hn Hu. cbn [tap_body].
  destruct (call_layer e xs masks None) as [xs1 masks1]. cbn zeta. cbn [fst snd].
  destruct (is_tap self idx); [|done].
  rewrite Hn, Hu. done.
Qed.

Lemma take_enumerate_index {A} (l : list A) k it :
  it ∈ take k (enumerate l) → (it.1 < k)%nat.
Proof.
  intros Hin. apply list_elem_of_lookup in Hin as [i Hi].
  pose proof (lookup_lt_Some _ _ _ Hi) as Hlt. rewrite length_take in Hlt.
  rewrite lookup_take_lt in Hi by lia. destruct it as [j x].
  apply enumerate_index in Hi as [-> _]. simpl. lia.
Qed.

(** The loop state right after the first tapped layer, for a conditioned
    encoder [self] and an encoder [self0] that differs from it only in having
    no conditioning. *)
Lemma first_tap_state self self0 norm ctc proj taps k e xs masks :
  embed self0 = embed self →
  encoders self0 = encoders self →
  normalize_before self0 = normalize_before self →
  intermediate_layers self = Some taps →
  intermediate_layers self0 = Some taps →
  (∀ x, final_norm self x = Ok (captured self norm x)) →
  (∀ x, final_norm self0 x = Ok (captured self0 norm x)) →
  use_conditioning self = true →
  use_conditioning self0 = false →
  ctc_softmax self = Some ctc →
  conditioning_layer self = Some proj →
  encoders self !! k = Some e →
  Z.of_nat k + 1 ∈ taps →
  (∀ j, (j < k)%nat → Z.of_nat j + 1 ∉ taps) →
  ∃ x m outs,
    batch_state self0 (S k) xs masks = Ok (x, m, outs) ∧
    batch_state self (S k) xs masks
    = Ok (tensor_add x (call_linear proj (call_ctc ctc (captured self norm x))),
          m, outs).
Proof.
  intros Hem Hl Hnb Hi Hi0 Hn Hn0 Hu Hu0 Hctc Hproj He Hk Hbefore.
  assert (∀ s, intermediate_layers s = Some taps →
          ∀ it, it ∈ take k (enumerate (encoders self)) → is_tap s it.1 = false)
    as Hprefix.
  { intros s Hs it Hit. unfold is_tap. rewrite Hs.
    apply bool_decide_eq_false_2, Hbefore. by eapply take_enumerate_index. }
  assert (∀ s, intermediate_layers s = Some taps → is_tap s k = true) as Htap.
  { intros s Hs. unfold is_tap. rewrite Hs. by apply bool_decide_eq_true_2. }
  unfold batch_state, embed_batch. rewrite Hi, Hi0, Hl, Hem.
  set (st := match embed self with
             | Sequential _ | VGG2L _ _ => (call_embed (embed self) xs, masks)
             | _ => call_embed_masked (embed self) xs masks
             end).
  destruct st as [xs0 masks0].
  rewrite (take_S_r _ _ (k, e)) by (by apply enumerate_lookup).
  rewrite !for_each_app.
  rewrite !tap_loop_untapped by auto. mstep.
  destruct (call_encoders _ xs0 masks0) as [x1 m1].
  cbn [for_each].
  rewrite (tap_body_conditioned self norm ctc proj _ _ _ _ _ Hn Hu Hctc Hproj).
  rewrite (tap_body_observed self0 norm _ _ _ _ _ Hn0 Hu0).
  assert (∀ x, captured self0 norm x = captured self norm x) as Hcap.
  { intros x. unfold captured. by rewrite Hnb. }
  rewrite !Htap by done. cbn zeta. rewrite Hcap. mstep.
  destruct (call_layer e x1 m1 None) as [x2 m2]. cbn [fst snd].
  by do 3 eexists.
Qed.

(** C6, as the code has it. With taps and a conditioning module configured,
    every tapped layer captures a copy of its output (normalised when
    [normalize_before] is set), computes the auxiliary prediction from the
    copy, projects it with the conditioning layer and adds the projection to
    the live activations, which the next layer then receives. At the first
    tapped layer the live activations are those of the non-conditioned run
    plus this contribution; when that layer is the last one and
    [normalize_before] is off, so are the final activations. *)
Theorem conditioning_feedback a self taps ctc xs masks :
  arg_intermediate_layers a = Some taps →
  arg_ctc_softmax a = Some ctc →
  Encoder_init a = Ok self →
  ∃ self0 d,
    Encoder_init (without_conditioning a) = Ok self0 ∧
    conditioning_layer_dim a = Some d ∧
    let norm := LayerNorm (attention_dim a) in
    let contribution x :=
      call_linear (Linear d (attention_dim a)) (call_ctc ctc (captured self norm x)) in
    (∀ x m outs idx e,
       tap_body self (x, m, outs) (idx, e)
       = let r := call_layer e x m None in
         if bool_decide (Z.of_nat idx + 1 ∈ taps)
         then Ok (tensor_add r.1 (contribution r.1), r.2,
                  outs ++ [captured self norm r.1])
         else Ok (r.1, r.2, outs)) ∧
    (∀ k, (k < length (encoders self))%nat →
       Z.of_nat k + 1 ∈ taps →
       (∀ j, (j < k)%nat → Z.of_nat j + 1 ∉ taps) →
       ∃ x m outs,
         batch_state self0 (S k) xs masks = Ok (x, m, outs) ∧
         batch_state self (S k) xs masks
         = Ok (tensor_add x (contribution x), m, outs) ∧
         (S k = length (encoders self) → arg_normalize_before a = false →
          forward self0 xs masks = Ok (x, m, Some outs) ∧
          forward self xs masks = Ok (tensor_add x (contribution x), m, Some outs))).
Proof.
  intros Htaps Hctc H.
  apply Encoder_init_inv in H
    as (em & factor & pw & cls & args & layers & Hem & Hpw & Hsa & Hl & Hc & ->).
  destruct Hc as [d Hd]; [by rewrite Hctc|].
  assert (Encoder_init (without_conditioning a)
          = Ok (built_from (without_conditioning a) em factor layers)) as H0.
  { apply (Encoder_init_built (without_conditioning a) em factor pw cls args layers);
      done. }
  set (self := built_from a em factor layers).
  set (self0 := built_from (without_conditioning a) em factor layers) in *.
  set (norm := LayerNorm (attention_dim a)).
  assert (∀ x, final_norm self x = Ok (captured self norm x)) as Hn.
  { intros x. unfold final_norm, captured, self, built_from.
    cbn [normalize_before after_norm]. by destruct (arg_normalize_before a). }
  assert (∀ x, final_norm self0 x = Ok (captured self0 norm x)) as Hn0.
  { intros x. unfold final_norm, captured, self0, built_from.
    cbn [normalize_before after_norm without_conditioning arg_normalize_before
         attention_dim].
    by destruct (arg_normalize_before a). }
  assert (use_conditioning self = true) as Hu.
  { unfold self, built_from. cbn [use_conditioning]. rewrite Hctc.
    by apply bool_decide_eq_true_2. }
  assert (use_conditioning self0 = false) as Hu0.
  { unfold self0, built_from. cbn [use_conditioning without_conditioning arg_ctc_softmax].
    apply bool_decide_eq_false_2. intros Hne. by apply Hne. }
  assert (ctc_softmax self = Some ctc) as Hc.
  { unfold self, built_from. cbn [ctc_softmax]. rewrite Hctc.
    by rewrite bool_decide_eq_true_2. }
  assert (conditioning_layer self = Some (Linear d (attention_dim a))) as Hp.
  { unfold self, built_from. cbn [conditioning_layer]. rewrite Hctc, Hd.
    by rewrite bool_decide_eq_true_2. }
  assert (intermediate_layers self = Some taps) as Hi by done.
  assert (intermediate_layers self0 = Some taps) as Hi0 by done.
  exists self0, d. split; [done|]. split; [done|]. cbn zeta. split.
  - intros x m outs idx e.
    rewrite (tap_body_conditioned self norm ctc _ _ _ _ _ _ Hn Hu Hc Hp).
    unfold is_tap. by rewrite Hi.
  - intros k Hk Htap Hbefore.
    destruct (lookup_lt_is_Some_2 (encoders self) k Hk) as [e He].
    destruct (first_tap_state self self0 norm ctc (Linear d (attention_dim a))
                taps k e xs masks) as (x & m & outs & Hb0 & Hb); try done.
    exists x, m, outs. split; [done|]. split; [done|].
    intros HS Hnb. rewrite !forward_batch_state.
    change (encoders self0) with (encoders self). rewrite <- HS, Hb0, Hb. mstep.
    unfold final_norm. change (normalize_before self0) with (arg_normalize_before a).
    change (normalize_before self) with (arg_normalize_before a).
    rewrite Hnb, Hi, Hi0. done.
Qed.

(** ** The embedding step of the two entry points *)


End ForwardFacts.

(** ** The concrete instance *)

Lemma stride_from_length {A B} k i (l : list A) (l' : list B) :
  length l = length l' → length (stride_from k i l) = length (stride_from k i l').
Proof.
  revert l' i. induction l as [|x l IH]; intros [|y l'] i Hlen; try done.
  injection Hlen as Hlen. destruct i; simpl; auto.
Qed.

Lemma stride_from_one {A} (l : list A) : stride_from 1 0 l = l.
Proof. induction l as [|x l IH]; [done|]. simpl. by rewrite IH. Qed.

Lemma scalar_frames_aligned :
  TimeAligned (Tensor:=list Z) (Mask:=list bool) length length.
Proof.
  split; simpl.
  - intros e xs masks Hlen. by apply stride_from_length.
  - intros members xs. by rewrite stride_from_one.
  - intros e xs masks. by rewrite length_map.
  - intros n xs. by rewrite length_map.
  - intros c xs. by rewrite length_map.
  - intros p xs. by rewrite length_map.
  - intros xs ys Hlen. rewrite length_zip_with. lia.
Qed.

Lemma tap_transparency_witness :
  ∃ self0,
    Encoder_init (set_intermediate_layers None
                    (scalar_args (Tag "conv2d") true None None None)) = Ok self0 ∧
    ∃ self1 x m outs,
      Encoder_init (set_intermediate_layers (Some [1; 2])
                      (scalar_args (Tag "conv2d") true None None None)) = Ok self1 ∧
      forward self0 frames9 mask9 = Ok (x, m, None) ∧
      forward self1 frames9 mask9 = Ok (x, m, Some outs).
Proof.
  eexists. split; [vm_compute; reflexivity|].
  lazymatch goal with
  | |- ∃ self1 x m outs, _ ∧ forward ?s _ _ = _ ∧ _ =>
      apply (tap_transparency (scalar_args (Tag "conv2d") true None None None)
               [1; 2] s frames9 mask9)
  end.
  - reflexivity.
  - vm_compute; reflexivity.
Defined.

Lemma mask_time_alignment_witness :
  ∃ self,
    Encoder_init (scalar_args (Tag "conv2d8") true (Some [1])
                              (Some (ExternalObject 0)) (Some 1)) = Ok self ∧
    length frames9 = length mask9 ∧
    (∀ k, ∃ x m outs,
       batch_state self k frames9 mask9 = Ok (x, m, outs) ∧ length x = length m) ∧
    ∃ x m outs, forward self frames9 mask9 = Ok (x, m, outs) ∧ length x = length m.
Proof.
  eexists. split; [vm_compute; reflexivity|]. split; [reflexivity|].
  lazymatch goal with
  | |- (∀ k, ∃ x m outs, batch_state ?s _ _ _ = _ ∧ _) ∧ _ =>
      destruct (mask_time_alignment length length (TimeAligned0:=scalar_frames_aligned)
                  (scalar_args (Tag "conv2d8") true (Some [1])
                               (Some (ExternalObject 0)) (Some 1))
                  s frames9 mask9) as (_ & Hstage & Hforward)
  end.
  - vm_compute; reflexivity.
  - reflexivity.
  - split; [exact Hstage | exact Hforward].
Defined.

Lemma one_step_cache_witness :
  ∃ self,
    Encoder_init (scalar_args (Tag "conv2d") true None None None) = Ok self ∧
    ∃ x m new_cache,
      forward_one_step self frames9 mask9 None = Ok (x, m, new_cache) ∧
      length new_cache = 2%nat.
Proof.
  eexists. split; [vm_compute; reflexivity|].
  lazymatch goal with
  | |- ∃ x m new_cache, forward_one_step ?s _ _ _ = _ ∧ _ =>
      destruct (one_step_cache (scalar_args (Tag "conv2d") true None None None)
                  s frames9 mask9 None)
        as (_ & _ & x & m & new_cache & Hstep & Hlen & _)
  end.
  - vm_compute; reflexivity.
  - rewrite !elem_of_cons, elem_of_nil. intros [Hin | [Hin | []]]; discriminate Hin.
  - intros c Hc. discriminate Hc.
  - exists x, m, new_cache. split; [exact Hstep | exact Hlen].
Defined.

(** C4 as stated ("always") fails for a supplied cache that is shorter than
    the stack: the loop pairs cache entries with layers and stops at the
    shorter. Two layers and a cache of one entry: only the first layer runs
    and the new cache has one entry. *)
Lemma one_step_cache_follows_shorter_cache :
  ∃ self,
    Encoder_init (scalar_args (Tag "linear") false None None None) = Ok self ∧
    length (encoders self) = 2%nat ∧
    forward_one_step self frames3 mask3 (Some [None])
    = Ok ([4; 2; 5], mask3, [[4; 2; 5]]).
Proof.
  eexists. split; [vm_compute; reflexivity|].
  split; vm_compute; reflexivity.
Qed.

Lemma conditioning_feedback_witness :
  ∃ self,
    Encoder_init (scalar_args (Tag "linear") false (Some [2])
                              (Some (ExternalObject 0)) (Some 1)) = Ok self ∧
    ∃ self0 x m outs,
      Encoder_init (without_conditioning
                      (scalar_args (Tag "linear") false (Some [2])
                                   (Some (ExternalObject 0)) (Some 1))) = Ok self0 ∧
      forward self0 frames3 mask3 = Ok (x, m, Some outs) ∧
      forward self frames3 mask3
      = Ok (tensor_add x (call_linear (Linear 1 1) (call_ctc (ExternalObject 0) x)),
            m, Some outs).
Proof.
  eexists. split; [vm_compute; reflexivity|].
  lazymatch goal with
  | |- ∃ self0 x m outs, _ ∧ _ ∧ forward ?s _ _ = _ =>
      destruct (conditioning_feedback
                  (scalar_args (Tag "linear") false (Some [2])
                               (Some (ExternalObject 0)) (Some 1))
                  s [2] (ExternalObject 0) frames3 mask3)
        as (self0 & d & H0 & Hd & _ & Hfirst)
  end.
  - reflexivity.
  - reflexivity.
  - vm_compute; reflexivity.
  - injection Hd as <-. cbn zeta in Hfirst.
    destruct (Hfirst 1%nat) as (x & m & outs & _ & _ & Hlast).
    + vm_compute. lia.
    + by left.
    + intros j Hj. assert (j = 0)%nat as -> by lia. tag_not_in_list.
    + destruct (Hlast eq_refl eq_refl) as [Hf0 Hf].
      exists self0, x, m, outs. split; [exact H0|]. split; [exact Hf0 | exact Hf].
Defined.

(** C6 as stated fails where a later stage absorbs the contribution. Hidden
    size one, two blocks, [normalize_before] set and a tap on the last
    layer: the conditioning adds 1 to every frame of the live activations,
    yet the final normalisation maps both runs to the same activations. *)
Lemma conditioning_absorbed_by_final_norm :
  ∃ self self0,
    Encoder_init (scalar_args (Tag "linear") true (Some [2])
                              (Some (ExternalObject 0)) (Some 1)) = Ok self ∧
    Encoder_init (without_conditioning
                    (scalar_args (Tag "linear") true (Some [2])
                                 (Some (ExternalObject 0)) (Some 1))) = Ok self0 ∧
    batch_state self0 2 frames3 mask3 = Ok ([5; 3; 6], mask3, [[0; 0; 0]]) ∧
    batch_state self 2 frames3 mask3 = Ok ([6; 4; 7], mask3, [[0; 0; 0]]) ∧
    forward self0 frames3 mask3 = Ok ([0; 0; 0], mask3, Some [[0; 0; 0]]) ∧
    forward self frames3 mask3 = Ok ([0; 0; 0], mask3, Some [[0; 0; 0]]).
Proof.
  do 2 eexists.
  split; [vm_compute; reflexivity|].
  split; [vm_compute; reflexivity|].
  repeat split; vm_compute; reflexivity.
Qed.



(** * Further properties of the constructor *)

Lemma init_embed_Ok_iff a :
  is_Ok (init_embed a)
  ↔ match input_layer a with
    | Tag t => t ∈ working_input_tags
    | _ => True
    end.
Proof.
  unfold init_embed. destruct (input_layer a) as [t| |]; [|split; by eexists..].
  split.
  - intros [[em factor] Hem].
    embed_tag_cases t Hem ltac:(tag_in_list).
  - unfold working_input_tags. rewrite !elem_of_cons, elem_of_nil.
    intros [-> | [-> | [-> | [-> | [-> | [-> | []]]]]]]; vm_compute; by eexists.
Qed.

Lemma get_positionwise_layer_Ok_iff t d u r k :
  is_Ok (get_positionwise_layer t d u r k) ↔ t ∈ positionwise_tags.
Proof.
  split; [|apply get_positionwise_layer_Ok].
  intros [pw Hpw].
  destruct (decide (t ∈ positionwise_tags)) as [|Hout]; [done|].
  unfold get_positionwise_layer in Hpw.
  rewrite !(eqb_outside _ _ positionwise_tags Hout) in Hpw by tag_in_list.
  discriminate Hpw.
Qed.

Lemma init_selfattn_Ok a cls args :
  init_selfattn a = Ok (cls, args) →
  selfattention_layer_type a ∈ mha_tags ∧
  cls = MultiHeadedAttention ∧
  args = replicate (num_blocks a)
           (AttnArgs (attention_heads a) (attention_dim a) (attention_dropout_rate a)).
Proof.
  unfold init_selfattn. intros H.
  destruct (bool_decide_reflect
              (selfattention_layer_type a
               ∈ ["selfattn"; "rel_selfattn"; "legacy_rel_selfattn"])) as [Hin|Hout].
  - resolve_globals_in H. by injection H as <- <-.
  - exfalso.
    repeat match type of H with
    | (if String.eqb ?t ?s then _ else _) = _ =>
        destruct (String.eqb t s); [resolve_globals_in H; discriminate H|]
    end.
    discriminate H.
Qed.

Lemma mapM_result_fmap {A B} (f : A → result B) (g : A → B) (l : list A) :
  (∀ x, x ∈ l → f x = Ok (g x)) → mapM f l = Ok (g <$> l).
Proof.
  induction l as [|x l IH]; intros Hl; [done|].
  cbn [mapM]. rewrite (Hl x) by (by left). mstep.
  rewrite IH by (intros y Hy; apply Hl; by right). done.
Qed.

Lemma new_encoder_layer_mha a positionwise i :
  (i < num_blocks a)%nat →
  new_encoder_layer a positionwise MultiHeadedAttention
    (replicate (num_blocks a)
       (AttnArgs (attention_heads a) (attention_dim a) (attention_dropout_rate a))) i
  = Ok (expected_layer a positionwise i).
Proof.
  intros Hi. unfold new_encoder_layer. resolve_globals.
  unfold py_index. by rewrite lookup_replicate_2.
Qed.

Lemma repeat_mha_layers a positionwise :
  repeat (num_blocks a)
    (new_encoder_layer a positionwise MultiHeadedAttention
       (replicate (num_blocks a)
          (AttnArgs (attention_heads a) (attention_dim a) (attention_dropout_rate a))))
  = Ok (expected_layer a positionwise <$> seq 0 (num_blocks a)).
Proof.
  unfold repeat. apply mapM_result_fmap.
  intros i Hi. apply elem_of_seq in Hi. apply new_encoder_layer_mha. lia.
Qed.

(** X1. What construction needs. Whenever the constructor returns an
    encoder, the input layer is one of the six working tags (or a module
    instance, or [None]), the position-wise tag is one of the three the
    selection knows, the attention tag is one of the three multi-head tags,
    and a conditioning dimension accompanies [ctc_softmax]. *)
Theorem Encoder_init_requirements a :
  is_Ok (Encoder_init a) →
  match input_layer a with
  | Tag t => t ∈ working_input_tags
  | _ => True
  end ∧
  positionwise_layer_type a ∈ positionwise_tags ∧
  selfattention_layer_type a ∈ mha_tags ∧
  (arg_ctc_softmax a ≠ None → is_Some (conditioning_layer_dim a)).
Proof.
  intros [self H].
  apply Encoder_init_inv in H
    as (em & factor & pw & cls & args & layers & Hem & Hpw & Hsa & _ & Hc & _).
  split; [|split; [|split]].
  - apply init_embed_Ok_iff. by eexists.
  - eapply get_positionwise_layer_Ok_iff. by eexists.
  - by apply init_selfattn_Ok in Hsa as [? _].
  - intros Hne. destruct (Hc Hne) as [d ->]. by eexists.
Qed.

Lemma Encoder_init_requirements_witness :
  "conv2d" ∈ working_input_tags ∧
  "linear" ∈ positionwise_tags ∧
  "selfattn" ∈ mha_tags.
Proof.
  destruct (Encoder_init_requirements (default_args 80)) as (Hin & Hpw & Hsa & _).
  - vm_compute. by eexists.
  - split; [exact Hin|]. split; [exact Hpw | exact Hsa].
Defined.

(** X2. Every layer of a constructed encoder is a multi-head attention layer
    with the shared arguments; the layers differ only in the skip rate, which
    is the one of their position. *)
Theorem constructed_layers a self :
  Encoder_init a = Ok self →
  ∃ positionwise,
    get_positionwise_layer (positionwise_layer_type a) (attention_dim a)
      (linear_units a) (dropout_rate a) (positionwise_conv_kernel_size a)
    = Ok positionwise ∧
    encoders self = expected_layer a positionwise <$> seq 0 (num_blocks a).
Proof.
  intros H.
  apply Encoder_init_inv in H
    as (em & factor & pw & cls & args & layers & _ & Hpw & Hsa & Hl & _ & ->).
  apply init_selfattn_Ok in Hsa as (_ & -> & ->).
  rewrite repeat_mha_layers in Hl. injection Hl as <-.
  exists pw. by split.
Qed.

Lemma constructed_layers_witness :
  ∃ self,
    Encoder_init (default_args 80) = Ok self ∧
    encoders self
    = expected_layer (default_args 80)
        (PositionwiseFeedForward, FFArgs 256 2048 0.1) <$> seq 0 6.
Proof.
  eexists. split; [vm_compute; reflexivity|].
  lazymatch goal with
  | |- encoders ?s = _ =>
      destruct (constructed_layers (default_args 80) s) as (pw & Hpw & Hl)
  end.
  - vm_compute; reflexivity.
  - vm_compute in Hpw. injection Hpw as <-. exact Hl.
Defined.

(** X4. Which attributes exist on a constructed encoder: the six the
    constructor always sets, [after_norm] exactly when [normalize_before] was
    requested, and [ctc_softmax] and [conditioning_layer] exactly when a
    [ctc_softmax] was passed. *)
Theorem attributes_present a self :
  Encoder_init a = Ok self →
  (∀ name, name ∈ ["conv_subsampling_factor"; "embed"; "normalize_before";
                   "encoders"; "intermediate_layers"; "use_conditioning"] →
           is_Some (attributes self !! name)) ∧
  (is_Some (attributes self !! "after_norm") ↔ arg_normalize_before a = true) ∧
  (is_Some (attributes self !! "ctc_softmax") ↔ arg_ctc_softmax a ≠ None) ∧
  (is_Some (attributes self !! "conditioning_layer") ↔ arg_ctc_softmax a ≠ None).
Proof.
  intros H.
  apply Encoder_init_inv in H
    as (em & factor & pw & cls & args & layers & _ & _ & _ & _ & Hc & ->).
  unfold attributes, built_from, set_if_some.
  cbn [conv_subsampling_factor embed normalize_before encoders after_norm
       intermediate_layers use_conditioning ctc_softmax conditioning_layer].
  destruct (arg_normalize_before a);
    (destruct (arg_ctc_softmax a) as [ctc|];
     [destruct Hc as [d ->]; [done|]; rewrite bool_decide_eq_true_2 by done
     |rewrite bool_decide_eq_false_2 by (intros Hne; by apply Hne)]);
    cbn [fmap option_fmap option_map];
    (split; [intros name Hin; rewrite !elem_of_cons, elem_of_nil in Hin;
             destruct Hin as [-> | [-> | [-> | [-> | [-> | [-> | []]]]]]];
             by simplify_map_eq|]);
    simplify_map_eq; repeat split; try done; try (by intros [? ?]);
    try (intros ?; by eexists); try (intros _; by eexists).
Qed.

Lemma attributes_present_witness :
  ∃ self,
    Encoder_init (default_args 80) = Ok self ∧
    is_Some (attributes self !! "after_norm") ∧
    attributes self !! "ctc_softmax" = None.
Proof.
  eexists. split; [vm_compute; reflexivity|].
  lazymatch goal with
  | |- is_Some (attributes ?s !! _) ∧ _ =>
      destruct (attributes_present (default_args 80) s) as (_ & Hnorm & Hctc & _)
  end.
  - vm_compute; reflexivity.
  - split; [by apply Hnorm|].
    destruct (attributes _ !! "ctc_softmax") eqn:Hlook; [|done].
    exfalso. by apply (proj1 Hctc); [eexists|].
Defined.

(** Witnesses for the tag checks. *)
Lemma unknown_positionwise_rejected_witness :
  Encoder_init {| idim := 80; attention_dim := 256; attention_heads := 4;
                  conv_wshare := 4; conv_kernel_length := "11"; conv_usebias := false;
                  linear_units := 2048; num_blocks := 6; dropout_rate := 0.1;
                  positional_dropout_rate := 0.1; attention_dropout_rate := 0;
                  input_layer := Tag "conv2d"; pos_enc_class := PositionalEncoding;
                  arg_normalize_before := true; concat_after := false;
                  positionwise_layer_type := "bogus";
                  positionwise_conv_kernel_size := 1;
                  selfattention_layer_type := "also-bogus"; padding_idx := -1;
                  stochastic_depth_rate := 0; arg_intermediate_layers := None;
                  arg_ctc_softmax := None; conditioning_layer_dim := None |}
  = Raise (NotImplementedError "Support only linear or conv1d.").
Proof.
  apply unknown_positionwise_rejected.
  - vm_compute. by eexists.
  - tag_not_in_list.
Defined.

Lemma unknown_selfattention_rejected_witness :
  Encoder_init (example_args (Tag "conv2d") "bogus" "11" 256 6 0 true None None None)
  = Raise (NotImplementedError "bogus").
Proof.
  apply (unknown_selfattention_rejected
           (example_args (Tag "conv2d") "bogus" "11" 256 6 0 true None None None)).
  - vm_compute. by eexists.
  - tag_in_list.
  - tag_not_in_list.
Defined.

Lemma conv_attention_name_error_witness :
  ∃ cls,
    Encoder_init (example_args (Tag "conv2d") "dynamicconv" "3_3_3_3_3_3" 256 6 0
                               true None None None)
    = Raise (NameError cls).
Proof.
  apply conv_attention_name_error.
  - vm_compute. by eexists.
  - tag_in_list.
  - tag_in_list.
Defined.

Lemma short_kernel_string_index_error_witness :
  conv_selfattn_layer_args
    (example_args (Tag "conv2d") "lightconv" "3_3" 256 4 0 true None None None)
  = Raise (IndexError "list index out of range").
Proof.
  apply short_kernel_string_index_error.
  - assert (split_on "_" (conv_kernel_length
              (example_args (Tag "conv2d") "lightconv" "3_3" 256 4 0 true
                            None None None)) = ["3"; "3"]) as ->
      by (vm_compute; reflexivity).
    repeat constructor; exists 3; vm_compute; reflexivity.
  - assert (split_on "_" (conv_kernel_length
              (example_args (Tag "conv2d") "lightconv" "3_3" 256 4 0 true
                            None None None)) = ["3"; "3"]) as ->
      by (vm_compute; reflexivity).
    cbn [length num_blocks example_args]. lia.
Defined.

(** * Further properties of the forward paths *)

Section ForwardMore.
Context {Tensor Mask : Type} `{!Collaborators Tensor Mask}.
Implicit Types (self : Encoder) (xs : Tensor) (masks : Mask).

Ltac astep := cbn [mbind result_bind mret result_ret get_attr].

Lemma enumerate_fst {A} (l : list A) : (enumerate l).*1 = seq 0 (length l).
Proof. unfold enumerate. apply fst_zip. by rewrite length_seq. Qed.

Lemma filter_none {A} (f : A → bool) (l : list A) :
  (∀ x, In x l → f x = false) → List.filter f l = [].
Proof.
  induction l as [|x l IH]; intros Hl; [done|].
  cbn [List.filter]. rewrite (Hl x) by (by left).
  apply IH. intros y Hy. apply Hl. by right.
Qed.

(** The tap loop never fails on an encoder whose attributes are in place,
    and appends one output per tapped index it visits. *)
Lemma tap_loop_outputs self (l : list (nat * EncoderLayer)) xs masks outs :
  attrs_ready self →
  ∃ x m new,
    for_each (tap_body self) l (xs, masks, outs) = Ok (x, m, outs ++ new) ∧
    length new = length (List.filter (is_tap self) (l.*1)).
Proof.
  intros Hr. revert xs masks outs.
  induction l as [|[idx e] l IH]; intros xs masks outs.
  - exists xs, masks, []. by rewrite app_nil_r.
  - cbn [for_each tap_body fmap list_fmap fst List.filter].
    destruct (call_layer e xs masks None) as [x1 m1].
    destruct (is_tap self idx) eqn:Htap.
    + destruct (final_norm_ready self x1 Hr) as (norm & _ & ->). mstep.
      destruct (use_conditioning self) eqn:Hu.
      * destruct Hr as [_ Hc]. destruct (Hc Hu) as [[ctc ->] [proj ->]]. astep.
        destruct (IH (tensor_add x1 (call_linear proj (call_ctc ctc (captured self norm x1))))
                    m1 (outs ++ [captured self norm x1])) as (x & m & new & -> & Hlen).
        exists x, m, (captured self norm x1 :: new).
        rewrite <- app_assoc. split; [done|]. simpl. by rewrite Hlen.
      * mstep.
        destruct (IH x1 m1 (outs ++ [captured self norm x1]))
          as (x & m & new & -> & Hlen).
        exists x, m, (captured self norm x1 :: new).
        rewrite <- app_assoc. split; [done|]. simpl. by rewrite Hlen.
    + mstep. apply IH.
Qed.

(** X5. On every encoder the constructor returns, neither entry point
    fails on an attribute: what they read under [normalize_before] and
    [use_conditioning] is what the constructor has set. A result of batch
    [forward] has the pair form exactly when no taps were configured. *)
Theorem forward_no_attribute_error a self xs masks :
  Encoder_init a = Ok self →
  (∀ attr, forward self xs masks ≠ Raise (AttributeError attr)) ∧
  (∀ cache attr, forward_one_step self xs masks cache ≠ Raise (AttributeError attr)) ∧
  (∀ x m o, forward self xs masks = Ok (x, m, o) →
     (o = None ↔ arg_intermediate_layers a = None)).
Proof.
  intros H. pose proof (Encoder_init_ready _ _ H) as Hr.
  assert (intermediate_layers self = arg_intermediate_layers a) as Hi.
  { apply Encoder_init_inv in H as (? & ? & ? & ? & ? & ? & _ & _ & _ & _ & _ & ->).
    done. }
  assert (∃ x m o, forward self xs masks = Ok (x, m, o) ∧
                   (o = None ↔ arg_intermediate_layers a = None)) as (x & m & o & Hf & Ho).
  { unfold forward. rewrite Hi.
    destruct (embed_batch self xs masks) as [xs0 masks0].
    destruct (arg_intermediate_layers a) as [taps|].
    + destruct (tap_loop_outputs self (enumerate (encoders self)) xs0 masks0 [] Hr)
        as (x & m & new & -> & _). mstep.
      destruct (final_norm_ready self x Hr) as (norm & _ & ->). mstep.
      do 3 eexists. split; [done|]. by split.
    + destruct (call_encoders (encoders self) xs0 masks0) as [x m]. mstep.
      destruct (final_norm_ready self x Hr) as (norm & _ & ->). mstep.
      do 3 eexists. by split. }
  split; [|split].
  - intros attr. by rewrite Hf.
  - intros cache attr. unfold forward_one_step.
    destruct (decide (input_layer a ∈ [Tag "conv2d6"; Tag "conv2d8"])) as [Hin|Hout].
    + destruct (embed_one_step_needs_mask a self xs masks H Hin) as [-> [msg ->]].
      done.
    + rewrite (embed_one_step_as_batch a self xs masks H Hout).
      destruct (embed_batch self xs masks) as [xs0 masks0]. mstep.
      destruct (fold_left step_body _ _) as [[x1 m1] new_cache].
      by destruct (final_norm_ready self x1 Hr) as (norm & _ & ->).
  - intros x' m' o' Hf'. rewrite Hf in Hf'. by injection Hf' as _ _ <-.
Qed.

(** X6. With taps configured, batch [forward] returns one intermediate
    output for each layer whose 1-based number occurs in the tap list, so
    entries of the list outside 1..N have no effect and a repeated entry
    counts once. *)
Theorem intermediate_outputs_count a self taps xs masks :
  arg_intermediate_layers a = Some taps →
  Encoder_init a = Ok self →
  ∃ x m outs,
    forward self xs masks = Ok (x, m, Some outs) ∧
    length outs
    = length (List.filter (λ k, bool_decide (Z.of_nat k + 1 ∈ taps))
                          (seq 0 (num_blocks a))) ∧
    ((∀ t, t ∈ taps → t < 1 ∨ Z.of_nat (num_blocks a) < t) → outs = []).
Proof.
  intros Htaps H. pose proof (Encoder_init_ready _ _ H) as Hr.
  assert (intermediate_layers self = Some taps ∧ length (encoders self) = num_blocks a)
    as [Hi Hlen].
  { apply Encoder_init_inv in H
      as (? & ? & ? & ? & ? & ? & _ & _ & _ & Hl & _ & ->).
    split; [done|]. by apply repeat_layers_lookup in Hl as [? _]. }
  unfold forward. rewrite Hi.
  destruct (embed_batch self xs masks) as [xs0 masks0].
  destruct (tap_loop_outputs self (enumerate (encoders self)) xs0 masks0 [] Hr)
    as (x & m & outs & -> & Hcount). mstep.
  destruct (final_norm_ready self x Hr) as (norm & _ & ->). mstep.
  rewrite enumerate_fst, Hlen in Hcount.
  assert (List.filter (is_tap self) (seq 0 (num_blocks a))
          = List.filter (λ k, bool_decide (Z.of_nat k + 1 ∈ taps))
                        (seq 0 (num_blocks a))) as Hfilter.
  { apply List.filter_ext. intros k. unfold is_tap. by rewrite Hi. }
  rewrite Hfilter in Hcount.
  exists (captured self norm x), m, outs. split; [done|]. split; [done|].
  intros Hout. apply nil_length_inv. rewrite Hcount.
  rewrite filter_none; [done|].
  intros k Hk. apply List.in_seq in Hk.
  apply bool_decide_eq_false_2. intros Hin.
  destruct (Hout _ Hin); lia.
Qed.

(** The loop state of a non-conditioned encoder after [k] layers: the
    activations of the first [k] layers, and the captured copy at every
    tapped position below [k]. *)
Lemma tap_prefix_state self norm (layers : list EncoderLayer) xs masks k :
  (∀ x, final_norm self x = Ok (captured self norm x)) →
  use_conditioning self = false →
  (k ≤ length layers)%nat →
  for_each (tap_body self) (take k (enumerate layers)) (xs, masks, [])
  = Ok (call_encoders (take k layers) xs masks,
        (λ i, captured self norm (call_encoders (take (S i) layers) xs masks).1)
          <$> List.filter (is_tap self) (seq 0 k)).
Proof.
  intros Hn Hu. induction k as [|k IH]; intros Hk; [done|].
  destruct (lookup_lt_is_Some_2 layers k) as [e He]; [lia|].
  rewrite (take_S_r _ _ (k, e)) by (by apply enumerate_lookup).
  rewrite for_each_app, IH by lia. mstep. cbn [for_each].
  rewrite (take_S_r layers k e) by done.
  destruct (call_encoders (take k layers) xs masks) as [x1 m1] eqn:Hprefix.
  rewrite (tap_body_observed self norm _ _ _ _ _ Hn Hu). cbn zeta.
  assert (call_encoders (take k layers ++ [e]) xs masks = call_layer e x1 m1 None)
    as Hlast.
  { unfold call_encoders in *. rewrite fold_left_app, Hprefix. done. }
  rewrite seq_S, List.filter_app, fmap_app. cbn [List.filter Nat.add].
  destruct (is_tap self k); mstep; rewrite Hlast.
  - destruct (call_layer e x1 m1 None) as [x2 m2] eqn:Hcall.
    cbn [fst snd fmap list_fmap]. do 3 f_equal.
    rewrite (take_S_r layers k e) by done. by rewrite Hlast.
  - destruct (call_layer e x1 m1 None) as [x2 m2]. cbn [fst snd fmap list_fmap].
    by rewrite app_nil_r.
Qed.

(** X7. Without conditioning, the intermediate output captured at a tapped
    layer k is the final normalisation (when [normalize_before] is set)
    applied to the output of the first k layers on the embedded input, and
    the outputs come in layer order. *)
Theorem intermediate_outputs_content a self taps xs masks :
  arg_intermediate_layers a = Some taps →
  arg_ctc_softmax a = None →
  Encoder_init a = Ok self →
  ∃ x m,
    forward self xs masks
    = Ok (x, m,
          Some ((λ k, captured self (LayerNorm (attention_dim a))
                        (call_encoders (take (S k) (encoders self))
                           (embed_batch self xs masks).1
                           (embed_batch self xs masks).2).1)
                  <$> List.filter (λ k, bool_decide (Z.of_nat k + 1 ∈ taps))
                                  (seq 0 (num_blocks a)))).
Proof.
  intros Htaps Hctc H.
  apply Encoder_init_inv in H
    as (em & factor & pw & cls & args & layers & _ & _ & _ & Hl & _ & ->).
  apply repeat_layers_lookup in Hl as [Hlen _].
  set (self := built_from a em factor layers).
  set (norm := LayerNorm (attention_dim a)).
  assert (∀ x, final_norm self x = Ok (captured self norm x)) as Hn.
  { intros x. unfold final_norm, captured, self, built_from.
    cbn [normalize_before after_norm]. by destruct (arg_normalize_before a). }
  assert (use_conditioning self = false) as Hu.
  { unfold self, built_from. cbn [use_conditioning]. rewrite Hctc.
    apply bool_decide_eq_false_2. intros Hne. by apply Hne. }
  assert (intermediate_layers self = Some taps) as Hi by done.
  rewrite forward_batch_state. unfold batch_state. rewrite Hi.
  destruct (embed_batch self xs masks) as [xs0 masks0]. cbn [fst snd].
  change (encoders self) with layers.
  rewrite (tap_prefix_state self norm layers xs0 masks0 (length layers) Hn Hu)
    by done.
  rewrite take_ge by done.
  destruct (call_encoders layers xs0 masks0) as [x m]. mstep. rewrite Hn. mstep.
  exists (captured self norm x), m. do 3 f_equal. rewrite Hlen.
  f_equal. apply List.filter_ext. intros k. unfold is_tap. by rewrite Hi.
Qed.

(** X8. A [ctc_softmax] passed without intermediate layers has no effect on
    batch [forward]: the conditioning only happens at taps. *)
Theorem conditioning_needs_taps a self xs masks :
  arg_intermediate_layers a = None →
  Encoder_init a = Ok self →
  ∃ self0,
    Encoder_init (without_conditioning a) = Ok self0 ∧
    forward self xs masks = forward self0 xs masks.
Proof.
  intros Htaps H.
  apply Encoder_init_inv in H
    as (em & factor & pw & cls & args & layers & Hem & Hpw & Hsa & Hl & Hc & ->).
  exists (built_from (without_conditioning a) em factor layers). split.
  - by apply (Encoder_init_built (without_conditioning a) em factor pw cls args layers).
  - by rewrite !forward_without_taps.
Qed.

(** X9. The one-step path neither taps nor conditions: its result does not
    depend on [intermediate_layers] or [ctc_softmax]. *)
Theorem one_step_ignores_taps a self xs masks :
  Encoder_init a = Ok self →
  ∃ self0,
    Encoder_init (set_intermediate_layers None (without_conditioning a)) = Ok self0 ∧
    ∀ cache, forward_one_step self xs masks cache
             = forward_one_step self0 xs masks cache.
Proof.
  intros H.
  apply Encoder_init_inv in H
    as (em & factor & pw & cls & args & layers & Hem & Hpw & Hsa & Hl & Hc & ->).
  exists (built_from (set_intermediate_layers None (without_conditioning a))
            em factor layers). split.
  - by apply (Encoder_init_built (set_intermediate_layers None (without_conditioning a))
                em factor pw cls args layers).
  - done.
Qed.

(** X10. The one-step loop pairs cache entries with layers and stops at the
    shorter of the two: when the embedding step returns (every front end but
    conv2d6 and conv2d8), a supplied cache with fewer entries than layers
    runs only that many layers, surplus entries are ignored, and with an
    empty cache list no layer runs at all. *)
Theorem one_step_short_cache a self xs masks c :
  Encoder_init a = Ok self →
  input_layer a ∉ [Tag "conv2d6"; Tag "conv2d8"] →
  ∃ xs0 masks0 x m new_cache,
    embed_one_step self xs masks = Ok (xs0, masks0) ∧
    forward_one_step self xs masks (Some c) = Ok (x, m, new_cache) ∧
    length new_cache = (length c `min` length (encoders self))%nat ∧
    (c = [] → new_cache = [] ∧ m = masks0 ∧ final_norm self xs0 = Ok x).
Proof.
  intros H Hout. pose proof (Encoder_init_ready _ _ H) as Hr.
  unfold forward_one_step. cbn [init_cache].
  rewrite (embed_one_step_as_batch a self xs masks H Hout).
  destruct (embed_batch self xs masks) as [xs0 masks0]. mstep.
  destruct (step_loop_cache (zip c (encoders self)) xs0 masks0) as [Hlen _].
  destruct (fold_left step_body (zip c (encoders self)) (xs0, masks0, []))
    as [[x m] new_cache] eqn:Hloop.
  destruct (final_norm_ready self x Hr) as (norm & _ & Hnorm). rewrite Hnorm. mstep.
  do 5 eexists. split; [done|]. split; [done|]. split.
  - simpl in Hlen. by rewrite Hlen, length_zip.
  - intros ->. simpl in Hloop. injection Hloop as <- <- <-. by rewrite Hnorm.
Qed.

Lemma step_loop_fresh (l : list EncoderLayer) xs masks acc :
  (fold_left step_body (zip (replicate (length l) None) l) (xs, masks, acc)).1
  = call_encoders l xs masks.
Proof.
  revert xs masks acc. induction l as [|e l IH]; intros xs masks acc; [done|].
  cbn [length replicate zip zip_with fold_left step_body].
  unfold call_encoders. cbn [fold_left fst snd].
  destruct (call_layer e xs masks None) as [x1 m1]. apply IH.
Qed.

(** X11. A first step without cache computes what batch [forward] computes
    without taps, for every front end except conv2d6 and conv2d8 (where the
    two entry points embed differently): same activations, same mask. *)
Theorem first_step_is_batch a self xs masks :
  arg_intermediate_layers a = None →
  input_layer a ∉ [Tag "conv2d6"; Tag "conv2d8"] →
  Encoder_init a = Ok self →
  ∃ x m new_cache,
    forward_one_step self xs masks None = Ok (x, m, new_cache) ∧
    forward self xs masks = Ok (x, m, None).
Proof.
  intros Htaps Hout H. pose proof (Encoder_init_ready _ _ H) as Hr.
  assert (intermediate_layers self = None) as Hi.
  { apply Encoder_init_inv in H as (? & ? & ? & ? & ? & ? & _ & _ & _ & _ & _ & ->).
    done. }
  rewrite forward_without_taps by done.
  unfold forward_one_step, main_path.
  rewrite (embed_one_step_as_batch a self xs masks H Hout). cbn [init_cache].
  destruct (embed_batch self xs masks) as [xs0 masks0]. mstep.
  pose proof (step_loop_fresh (encoders self) xs0 masks0 []) as Hloop.
  destruct (fold_left step_body _ _) as [[x m] new_cache]. simpl in Hloop.
  rewrite <- Hloop.
  destruct (final_norm_ready self x Hr) as (norm & _ & ->). mstep.
  by do 3 eexists.
Qed.

End ForwardMore.

(** ** The forward paths on the concrete instance *)

Lemma forward_no_attribute_error_witness :
  ∃ self,
    Encoder_init (scalar_args (Tag "conv2d") true (Some [1])
                              (Some (ExternalObject 0)) (Some 1)) = Ok self ∧
    (∀ attr, forward self frames9 mask9 ≠ Raise (AttributeError attr)) ∧
    (∀ cache attr,
       forward_one_step self frames9 mask9 cache ≠ Raise (AttributeError attr)).
Proof.
  eexists. split; [vm_compute; reflexivity|].
  lazymatch goal with
  | |- (∀ attr, forward ?s _ _ ≠ _) ∧ _ =>
      destruct (forward_no_attribute_error
                  (scalar_args (Tag "conv2d") true (Some [1])
                               (Some (ExternalObject 0)) (Some 1))
                  s frames9 mask9) as (Hbatch & Hstep & _)
  end.
  - vm_compute; reflexivity.
  - split; [exact Hbatch | exact Hstep].
Defined.

Lemma intermediate_outputs_count_witness :
  ∃ self,
    Encoder_init (scalar_args (Tag "linear") false (Some [0; 2; 2; 7]) None None)
    = Ok self ∧
    ∃ x m outs,
      forward self frames3 mask3 = Ok (x, m, Some outs) ∧ length outs = 1%nat.
Proof.
  eexists. split; [vm_compute; reflexivity|].
  lazymatch goal with
  | |- ∃ x m outs, forward ?s _ _ = _ ∧ _ =>
      destruct (intermediate_outputs_count
                  (scalar_args (Tag "linear") false (Some [0; 2; 2; 7]) None None)
                  s [0; 2; 2; 7] frames3 mask3)
        as (x & m & outs & Hf & Hlen & _)
  end.
  - reflexivity.
  - vm_compute; reflexivity.
  - exists x, m, outs. split; [exact Hf|]. rewrite Hlen. vm_compute; reflexivity.
Defined.

Lemma intermediate_outputs_content_witness :
  ∃ self,
    Encoder_init (scalar_args (Tag "linear") false (Some [2; 1]) None None) = Ok self ∧
    ∃ x m,
      forward self frames3 mask3 = Ok (x, m, Some [[4; 2; 5]; [5; 3; 6]]).
Proof.
  eexists. split; [vm_compute; reflexivity|].
  lazymatch goal with
  | |- ∃ x m, forward ?s _ _ = _ =>
      destruct (intermediate_outputs_content
                  (scalar_args (Tag "linear") false (Some [2; 1]) None None)
                  s [2; 1] frames3 mask3) as (x & m & Hf)
  end.
  - reflexivity.
  - reflexivity.
  - vm_compute; reflexivity.
  - exists x, m. rewrite Hf. vm_compute; reflexivity.
Defined.

Lemma conditioning_needs_taps_witness :
  ∃ self,
    Encoder_init (scalar_args (Tag "linear") true None
                              (Some (ExternalObject 0)) (Some 1)) = Ok self ∧
    ∃ self0,
      Encoder_init (without_conditioning
                      (scalar_args (Tag "linear") true None
                                   (Some (ExternalObject 0)) (Some 1))) = Ok self0 ∧
      forward self frames3 mask3 = forward self0 frames3 mask3.
Proof.
  eexists. split; [vm_compute; reflexivity|].
  lazymatch goal with
  | |- ∃ self0, _ ∧ forward ?s _ _ = _ =>
      apply (conditioning_needs_taps
               (scalar_args (Tag "linear") true None
                            (Some (ExternalObject 0)) (Some 1)) s frames3 mask3)
  end.
  - reflexivity.
  - vm_compute; reflexivity.
Defined.

Lemma one_step_ignores_taps_witness :
  ∃ self,
    Encoder_init (scalar_args (Tag "conv2d") true (Some [1])
                              (Some (ExternalObject 0)) (Some 1)) = Ok self ∧
    ∃ self0,
      Encoder_init (set_intermediate_layers None
                      (without_conditioning
                         (scalar_args (Tag "conv2d") true (Some [1])
                                      (Some (ExternalObject 0)) (Some 1)))) = Ok self0 ∧
      ∀ cache, forward_one_step self frames9 mask9 cache
               = forward_one_step self0 frames9 mask9 cache.
Proof.
  eexists. split; [vm_compute; reflexivity|].
  lazymatch goal with
  | |- ∃ self0, _ ∧ ∀ cache, forward_one_step ?s _ _ _ = _ =>
      apply (one_step_ignores_taps
               (scalar_args (Tag "conv2d") true (Some [1])
                            (Some (ExternalObject 0)) (Some 1)) s frames9 mask9)
  end.
  vm_compute; reflexivity.
Defined.

Lemma one_step_short_cache_witness :
  ∃ self,
    Encoder_init (scalar_args (Tag "linear") false None None None) = Ok self ∧
    length (encoders self) = 2%nat ∧
    ∃ x m new_cache,
      forward_one_step self frames3 mask3 (Some [None]) = Ok (x, m, new_cache) ∧
      length new_cache = 1%nat.
Proof.
  eexists. split; [vm_compute; reflexivity|]. split; [vm_compute; reflexivity|].
  lazymatch goal with
  | |- ∃ x m new_cache, forward_one_step ?s _ _ _ = _ ∧ _ =>
      destruct (one_step_short_cache
                  (scalar_args (Tag "linear") false None None None)
                  s frames3 mask3 [None])
        as (xs0 & masks0 & x & m & new_cache & _ & Hstep & Hlen & _)
  end.
  - vm_compute; reflexivity.
  - rewrite !elem_of_cons, elem_of_nil. intros [Hin | [Hin | []]]; discriminate Hin.
  - exists x, m, new_cache. split; [exact Hstep | exact Hlen].
Defined.

Lemma first_step_is_batch_witness :
  ∃ self,
    Encoder_init (scalar_args (Tag "conv2d") true None None None) = Ok self ∧
    ∃ x m new_cache,
      forward_one_step self frames9 mask9 None = Ok (x, m, new_cache) ∧
      forward self frames9 mask9 = Ok (x, m, None).
Proof.
  eexists. split; [vm_compute; reflexivity|].
  lazymatch goal with
  | |- ∃ x m new_cache, forward_one_step ?s _ _ _ = _ ∧ _ =>
      apply (first_step_is_batch (scalar_args (Tag "conv2d") true None None None)
               s frames9 mask9)
  end.
  - reflexivity.
  - rewrite !elem_of_cons, elem_of_nil. intros [Hin | [Hin | []]]; discriminate Hin.
  - vm_compute; reflexivity.
Defined.
